(** * Incremental appointment sync: job_data.csv -> appointments_dump.csv

    A shallow embedding of [appointments.py] and the properties of its
    reconciliation workflow.

    Modelling conventions.
    - A Python [dict] (a JSON object, a table row) is an association list in
      insertion order; lookup takes the first binding of a key.
    - A pandas [DataFrame] is its column labels and its rows; a row is a
      sparse dict and a missing label reads as [VNull] (NaN).  Writing a
      table as CSV and parsing it back is taken as the identity.
    - Cell values are integers, text or null; other JSON values (floats,
      arrays, nested objects) are carried as their text.
    - Integers are Python integers: [Z], with [Z.modulo] for [%].
    - The Drive folder is a finite map from file name to table; a file id is
      the file name.  Drive calls do not fail in transport.
    - The ServiceTitan API is an oracle: the n-th token request either
      yields a token or fails, a GET either yields a response (status code
      and body) or fails in transport.
    - [main] runs in a state-and-error monad that also collects the
      externally visible events of the run in order. *)

From Stdlib Require Import ZArith Lia Ascii String.
From stdpp Require Import base option list gmap strings.

Local Open Scope Z_scope.

(** ** Values, dicts and tables *)

Inductive Value : Type :=
| VNull
| VInt (z : Z)
| VStr (s : string).

(** A Python dict with string keys, in insertion order. *)
Definition Dict : Type := list (string * Value).

Fixpoint dict_get (k : string) (d : Dict) : option Value :=
  match d with
  | [] => None
  | (k', v) :: d' => if decide (k' = k) then Some v else dict_get k d'
  end.

(** [d.setdefault(k, v)]: binds [k] to [v] at the end when [k] is not a key
    of [d], and leaves [d] alone otherwise. *)
Definition dict_setdefault (k : string) (v : Value) (d : Dict) : Dict :=
  match dict_get k d with
  | Some _ => d
  | None => d ++ [(k, v)]
  end.

Definition dict_keys (d : Dict) : list string := d.*1.

Record DataFrame : Type := mkDataFrame {
  columns : list string;
  rows : list Dict
}.

(** First occurrences, in order (the order of a pandas index union and of
    [Series.unique]). *)
Fixpoint unique_from `{EqDecision A} (seen : list A) (l : list A) : list A :=
  match l with
  | [] => []
  | x :: l' =>
      if decide (x ∈ seen) then unique_from seen l'
      else x :: unique_from (x :: seen) l'
  end.

Definition unique `{EqDecision A} (l : list A) : list A := unique_from [] l.


(** [pd.DataFrame(batch)] for a list of dicts. *)
Definition DataFrame_of_records (batch : list Dict) : DataFrame :=
  mkDataFrame (unique (concat (dict_keys <$> batch))) batch.

(** [df.empty]: some axis has length zero. *)
Definition df_empty (df : DataFrame) : bool :=
  match columns df, rows df with
  | [], _ | _, [] => true
  | _, _ => false
  end.

Definition cell (c : string) (r : Dict) : Value :=
  default VNull (dict_get c r).

(** [df[c]] as the list of its cells, top to bottom. *)
Definition column (c : string) (df : DataFrame) : list Value :=
  cell c <$> rows df.

(** [pd.concat([prior, df], ignore_index=True)] *)
Definition df_concat (prior df : DataFrame) : DataFrame :=
  mkDataFrame (unique (columns prior ++ columns df)) (rows prior ++ rows df).

(** ** Errors and results *)

Inductive Error : Type :=
| HTTPError (status : Z)        (* raise_for_status *)
| ConnectionError               (* requests.get / requests.post transport *)
| JSONDecodeError               (* r.json() on a body that is not JSON *)
| AttributeError                (* setdefault on a JSON value that is not an object *)
| TypeError                     (* ["access_token"] on a JSON value that is not an object *)
| KeyError (k : string)         (* df[k] on a missing label *)
| ValueError                    (* astype(int) on a null or on text *)
| ZeroDivisionError             (* count % 0 *)
| DriveError (fid : string).    (* Drive call on a file id that does not exist *)

(** The two [sys.exit(message)] calls of [main]. *)
Inductive ExitMsg : Type :=
| JobFileNotFound               (* "job_data.csv not found in folder." *)
| LacksIdColumns.               (* "job_data.csv lacks firstappointmentid / lastappointmentid columns." *)

Inductive Res (A : Type) : Type :=
| Ok (a : A)
| Exit (m : ExitMsg)
| Raise (e : Error).
Arguments Ok {A} a.
Arguments Exit {A} m.
Arguments Raise {A} e.

(** ** Reading the ID columns *)

Definition lower_ascii (a : ascii) : ascii :=
  let n := nat_of_ascii a in
  if (Nat.leb 65 n && Nat.leb n 90)%bool then ascii_of_nat (n + 32) else a.

Fixpoint lower (s : string) : string :=
  match s with
  | EmptyString => EmptyString
  | String a s' => String (lower_ascii a) (lower s')
  end.

Definition is_id_col (c : string) : bool :=
  bool_decide (lower c ∈ ["firstappointmentid"; "lastappointmentid"]%string).

(** [pd.isna] on a cell *)
Definition isna (v : Value) : bool :=
  match v with
  | VNull => true
  | _ => false
  end.

(** [Series.dropna()] *)
Definition dropna (col : list Value) : list Value :=
  filter (λ v, isna v = false) col.

(** [Series.astype(int)] on a column of integer cells; a null or a text cell
    raises. *)
Fixpoint astype_int (col : list Value) : Res (list Z) :=
  match col with
  | [] => Ok []
  | VInt z :: col' =>
      match astype_int col' with
      | Ok zs => Ok (z :: zs)
      | r => r
      end
  | _ :: _ => Raise ValueError
  end.

(** [set(dump_df["id"].astype(int)) if not dump_df.empty else set()] *)
Definition done_ids (dump_df : DataFrame) : Res (gset Z) :=
  if df_empty dump_df then Ok ∅
  else if decide ("id"%string ∈ columns dump_df) then
    match astype_int (column "id" dump_df) with
    | Ok zs => Ok (list_to_set zs)
    | Exit m => Exit m
    | Raise e => Raise e
    end
  else Raise (KeyError "id").

(** [[c for c in job_df.columns if c.lower() in {...}]] *)
Definition id_cols (job_df : DataFrame) : list string :=
  filter (λ c, is_id_col c = true) (columns job_df).

(** [pd.concat([job_df[c] for c in id_cols])]: the selected columns stacked
    one under the other. *)
Definition stacked (job_df : DataFrame) : list Value :=
  concat ((λ c, column c job_df) <$> id_cols job_df).

(** Lines 123-133 of [main]: the IDs still to fetch.  The order of the
    checks is the order of the source: the dump's ids are read first, then
    the reference columns are required, then the stacked column is coerced. *)
Definition todo_ids (job_df dump_df : DataFrame) : Res (list Z) :=
  match done_ids dump_df with
  | Ok done =>
      match id_cols job_df with
      | [] => Exit LacksIdColumns
      | _ :: _ =>
          match astype_int (dropna (stacked job_df)) with
          | Ok ids => Ok (filter (λ i, i ∉ done) (unique ids))
          | Exit m => Exit m
          | Raise e => Raise e
          end
      end
  | Exit m => Exit m
  | Raise e => Raise e
  end.

(** ** The ServiceTitan API as an oracle *)

(** What [r.json()] finds in a response body. *)
Inductive Body : Type :=
| NotJson
| JsonObject (d : Dict)
| JsonOther.

Record Response : Type := mkResponse {
  status_code : Z;
  body : Body
}.

(** A [requests] call either returns a response or raises in transport. *)
Inductive Reply : Type :=
| Got (r : Response)
| Failed (e : Error).

Record Remote : Type := mkRemote {
  (* the reply to the n-th POST to the token endpoint, n counted from 0 *)
  post_token : nat → Reply;
  (* the reply to GET .../appointments/{aid} sent with the given token *)
  get_appointment : Z → Value → Reply
}.

(** [Response.raise_for_status] of [requests]: raises on a 4xx or 5xx
    status, and on nothing else. *)
Definition raise_for_status (r : Response) : Res unit :=
  if (400 <=? status_code r) && (status_code r <? 600)
  then Raise (HTTPError (status_code r))
  else Ok tt.

(** [fetch_appt(aid, token)] *)
Definition fetch_appt (api : Remote) (aid : Z) (token : Value) : Res Dict :=
  match get_appointment api aid token with
  | Failed e => Raise e
  | Got r =>
      if status_code r =? 404
      then Ok [("id"%string, VInt aid); ("status"%string, VStr "NOT_FOUND")]
      else
        match raise_for_status r with
        | Ok _ =>
            match body r with
            | JsonObject data => Ok (dict_setdefault "id" (VInt aid) data)
            | NotJson => Raise JSONDecodeError
            | JsonOther => Raise AttributeError
            end
        | Exit m => Exit m
        | Raise e => Raise e
        end
  end.

(** ** The run: state, events and the monad of [main] *)

Inductive Msg : Type :=
| MsgCreated                    (* "Created appointments_dump.csv in Drive." *)
| MsgUpToDate                   (* "appointments_dump.csv already up-to-date." *)
| MsgToFetch (n : nat)          (* "{n} new appointments to fetch" *)
| MsgUpdated (count : Z)        (* "{count} downloaded - Drive file updated." *)
| MsgFinished (count : Z).      (* "Finished - {count} new rows appended to ..." *)

(** The calls of [main] that reach outside the process, in program order. *)
Inductive Event : Type :=
| EvCreate (name : string) (content : DataFrame)   (* svc.files().create *)
| EvToken                                          (* st_token() *)
| EvFetch (aid : Z) (token : Value)                (* fetch_appt(aid, token) *)
| EvWarning (aid : Z) (e : Error)                  (* logging.warning *)
| EvAppend (fid : string) (df : DataFrame)         (* append_drive_csv *)
| EvPrint (m : Msg).                               (* print *)

Record State : Type := mkState {
  drive : gmap string DataFrame;
  token_requests : nat
}.

Definition M (A : Type) : Type := State → Res A * State * list Event.

Definition ret {A} (a : A) : M A := λ s, (Ok a, s, []).

Definition bind {A B} (m : M A) (k : A → M B) : M B := λ s,
  match m s with
  | (Ok a, s1, t1) =>
      match k a s1 with
      | (r, s2, t2) => (r, s2, t1 ++ t2)
      end
  | (Exit x, s1, t1) => (Exit x, s1, t1)
  | (Raise e, s1, t1) => (Raise e, s1, t1)
  end.

Declare Scope run_scope.
Delimit Scope run_scope with run.
Notation "x <- c ;; k" := (bind c (λ x, k))
  (at level 100, c at next level, right associativity) : run_scope.
Notation "c ;; k" := (bind c (λ _, k))
  (at level 100, right associativity) : run_scope.

Definition emit (e : Event) : M unit := λ s, (Ok tt, s, [e]).
Definition raise {A} (e : Error) : M A := λ s, (Raise e, s, []).
Definition sys_exit {A} (m : ExitMsg) : M A := λ s, (Exit m, s, []).
Definition print (m : Msg) : M unit := emit (EvPrint m).

Definition lift {A} (r : Res A) : M A := λ s, (r, s, []).

(** The exit status of the process for each way [main] can end: a normal
    return gives 0; [sys.exit] with a message and an uncaught exception both
    print to stderr and give 1. *)
Definition exit_code {A} (r : Res A) : Z :=
  match r with
  | Ok _ => 0
  | Exit _ => 1
  | Raise _ => 1
  end.

(** What [st_token] makes of the reply to its POST: [raise_for_status],
    then [r.json()["access_token"]]. *)
Definition token_reply (p : Reply) : Res Value :=
  match p with
  | Failed e => Raise e
  | Got r =>
      match raise_for_status r with
      | Ok _ =>
          match body r with
          | JsonObject d =>
              match dict_get "access_token" d with
              | Some tok => Ok tok
              | None => Raise (KeyError "access_token")
              end
          | NotJson => Raise JSONDecodeError
          | JsonOther => Raise TypeError
          end
      | Exit m => Exit m
      | Raise e => Raise e
      end
  end.

Section Workflow.

Variable BATCH_SIZE : Z.
Variable api : Remote.

Definition JOB_FILE_NAME : string := "job_data.csv".
Definition DUMP_FILE_NAME : string := "appointments_dump.csv".

Local Open Scope run_scope.

(** [find_file_id(svc, name, FOLDER_ID)] *)
Definition find_file_id (name : string) : M (option string) := λ s,
  (Ok (match drive s !! name with Some _ => Some name | None => None end), s, []).

(** [read_drive_csv(svc, fid)] *)
Definition read_drive_csv (fid : string) : M DataFrame := λ s,
  match drive s !! fid with
  | Some df => (Ok df, s, [])
  | None => (Raise (DriveError fid), s, [])
  end.

(** [svc.files().update(fileId=fid, media_body=...)] *)
Definition drive_update (fid : string) (df : DataFrame) : M unit := λ s,
  match drive s !! fid with
  | Some _ => (Ok tt, mkState (<[fid := df]> (drive s)) (token_requests s), [])
  | None => (Raise (DriveError fid), s, [])
  end.

(** [svc.files().create(body=meta, media_body=...)] *)
Definition drive_create (name : string) (df : DataFrame) : M string := λ s,
  (Ok name, mkState (<[name := df]> (drive s)) (token_requests s),
   [EvCreate name df]).

(** [append_drive_csv(svc, df, fid)] *)
Definition append_drive_csv (df : DataFrame) (fid : string) : M unit :=
  emit (EvAppend fid df) ;;
  prior <- read_drive_csv fid ;;
  drive_update fid (df_concat prior df).

(** [st_token()] *)
Definition st_token : M Value := λ s,
  (token_reply (post_token api (token_requests s)),
   mkState (drive s) (S (token_requests s)),
   [EvToken]).

(** The variables the loop of [main] updates. *)
Record Loop : Type := mkLoop {
  token : Value;
  batch : list Dict;
  count : Z
}.

(** One iteration of [for aid in todo_ids] (lines 144-154). *)
Definition loop_body (dump_id : string) (aid : Z) (l : Loop) : M Loop :=
  emit (EvFetch aid (token l)) ;;
  match fetch_appt api aid (token l) with
  | Raise e =>
      (* except Exception as e: logging.warning(...); continue *)
      emit (EvWarning aid e) ;; ret l
  | Exit m => sys_exit m
  | Ok rec =>
      let batch' := batch l ++ [rec] in
      let count' := count l + 1 in
      if BATCH_SIZE =? 0 then raise ZeroDivisionError
      else if count' mod BATCH_SIZE =? 0 then
        append_drive_csv (DataFrame_of_records batch') dump_id ;;
        token' <- st_token ;;
        print (MsgUpdated count') ;;
        ret (mkLoop token' [] count')
      else ret (mkLoop (token l) batch' count')
  end.

Fixpoint fetch_loop (dump_id : string) (todo : list Z) (l : Loop) : M Loop :=
  match todo with
  | [] => ret l
  | aid :: todo' =>
      l' <- loop_body dump_id aid l ;;
      fetch_loop dump_id todo' l'
  end.

(** The table the dump file is created with: the bytes "id\n". *)
Definition header_only : DataFrame := mkDataFrame ["id"%string] [].

(** Lines 138-158 of [main]: the fetch loop and the final flush. *)
Definition fetch_all (dump_id : string) (todo : list Z) : M unit :=
  print (MsgToFetch (length todo)) ;;
  token0 <- st_token ;;
  l <- fetch_loop dump_id todo (mkLoop token0 [] 0) ;;
  append_drive_csv (DataFrame_of_records (batch l)) dump_id ;;
  print (MsgFinished (count l)).

(** Lines 112-118 of [main]: the dump file's id, creating the file when it
    is missing. *)
Definition ensure_dump (dump_id : option string) : M string :=
  match dump_id with
  | Some d => ret d
  | None =>
      d <- drive_create DUMP_FILE_NAME header_only ;;
      print MsgCreated ;;
      ret d
  end.

(** [main()] *)
Definition main : M unit :=
  job_id <- find_file_id JOB_FILE_NAME ;;
  dump_id <- find_file_id DUMP_FILE_NAME ;;
  match job_id with
  | None => sys_exit JobFileNotFound
  | Some job_id =>
      dump_id <- ensure_dump dump_id ;;
      job_df <- read_drive_csv job_id ;;
      dump_df <- read_drive_csv dump_id ;;
      todo <- lift (todo_ids job_df dump_df) ;;
      match todo with
      | [] => print MsgUpToDate
      | _ :: _ => fetch_all dump_id todo
      end
  end.

End Workflow.

(** The batch size the script is configured with. *)
Definition BATCH_SIZE_default : Z := 50.

(** ** Reading a run off its events *)

Definition is_append (e : Event) : option DataFrame :=
  match e with EvAppend _ df => Some df | _ => None end.
Definition is_fetch (e : Event) : option (Z * Value) :=
  match e with EvFetch aid tok => Some (aid, tok) | _ => None end.
Definition is_warning (e : Event) : option (Z * Error) :=
  match e with EvWarning aid err => Some (aid, err) | _ => None end.
Definition is_token (e : Event) : option unit :=
  match e with EvToken => Some tt | _ => None end.

(** The tables handed to [append_drive_csv], in call order. *)
Definition appends (t : list Event) : list DataFrame := omap is_append t.
(** The rows of all of them, in order. *)
Definition appended_rows (t : list Event) : list Dict :=
  concat (rows <$> appends t).
(** The number of rows of each append. *)
Definition append_sizes (t : list Event) : list nat :=
  (λ df, length (rows df)) <$> appends t.
(** The calls to [fetch_appt]: the ID and the token in use. *)
Definition fetches (t : list Event) : list (Z * Value) := omap is_fetch t.
Definition warnings (t : list Event) : list (Z * Error) := omap is_warning t.
Definition token_calls (t : list Event) : nat := length (omap is_token t).

(** What a call to [fetch_appt] returned, when it returned. *)
Definition fetched (api : Remote) (a : Z * Value) : option Dict :=
  match fetch_appt api a.1 a.2 with
  | Ok rec => Some rec
  | _ => None
  end.
(** What it raised, when it raised. *)
Definition failed (api : Remote) (a : Z * Value) : option (Z * Error) :=
  match fetch_appt api a.1 a.2 with
  | Raise e => Some (a.1, e)
  | _ => None
  end.

(** The API never refuses a token. *)
Definition tokens_granted (api : Remote) : Prop :=
  ∀ n, ∃ tok, token_reply (post_token api n) = Ok tok.

(** The table [main] reads as the dump: the file's, or the header it has
    just created. *)
Definition dump_read (s : State) : DataFrame :=
  default header_only (drive s !! DUMP_FILE_NAME).

(** The events of the bootstrap (lines 112-118). *)
Definition created (s : State) : list Event :=
  match drive s !! DUMP_FILE_NAME with
  | Some _ => []
  | None => [EvCreate DUMP_FILE_NAME header_only; EvPrint MsgCreated]
  end.

(** The Drive folder once the dump file is known to exist. *)
Definition booted (s : State) : State :=
  match drive s !! DUMP_FILE_NAME with
  | Some _ => s
  | None => mkState (<[DUMP_FILE_NAME := header_only]> (drive s))
                    (token_requests s)
  end.

(** The dump has a column labelled id, and [i] is one of its cells. *)
Definition dump_has_id (dump_df : DataFrame) (i : Z) : Prop :=
  "id"%string ∈ columns dump_df ∧ VInt i ∈ column "id" dump_df.

(** Puts the events of the bootstrap in front of those of the rest. *)
Definition after_boot {A} (s : State) (x : Res A * State * list Event)
  : Res A * State * list Event :=
  (x.1.1, x.1.2, created s ++ x.2).

(** The state once a token has been requested. *)
Definition authed (s : State) : State :=
  mkState (drive s) (S (token_requests s)).

(** The state after [append_drive_csv(pd.DataFrame(recs), fid)] and
    [st_token()], when the file held [d]. *)
Definition flushed (fid : string) (s : State) (d : DataFrame)
    (recs : list Dict) : State :=
  mkState (<[fid := df_concat d (DataFrame_of_records recs)]> (drive s))
          (S (token_requests s)).

(** Number of batches of size [b] needed for [n] items: ceil(n / b). *)
Definition ceil_div (n b : Z) : Z := (n + b - 1) / b.

(** The order the specification describes: the reference columns scanned
    left to right within each row, row by row; first occurrences kept. *)
Definition row_by_row (job_df : DataFrame) : list Value :=
  concat ((λ r, (λ c, cell c r) <$> id_cols job_df) <$> rows job_df).

Definition row_by_row_ids (job_df : DataFrame) : Res (list Z) :=
  match astype_int (dropna (row_by_row job_df)) with
  | Ok ids => Ok (unique ids)
  | r => r
  end.

(** ** Sample data *)

Module Sample.
Local Open Scope string_scope.

(** Tokens t0, t1, ... are granted without fail. *)
Definition grant (n : nat) : Reply :=
  Got (mkResponse 200 (JsonObject [("access_token", VInt (Z.of_nat n))])).

(** Every appointment exists. *)
Definition api_ok : Remote :=
  mkRemote grant
    (λ aid _, Got (mkResponse 200 (JsonObject [("id", VInt aid); ("active", VStr "true")]))).

(** Appointment 11 answers 500; the others exist. *)
Definition api_11_fails : Remote :=
  mkRemote grant
    (λ aid _, if (aid =? 11)%Z then Got (mkResponse 500 NotJson)
              else Got (mkResponse 200 (JsonObject [("id", VInt aid)]))).

(** Appointment 2 answers 500; the others exist. *)
Definition api_2_fails : Remote :=
  mkRemote grant
    (λ aid _, if (aid =? 2)%Z then Got (mkResponse 500 NotJson)
              else Got (mkResponse 200 (JsonObject [("id", VInt aid)]))).

(** Appointment 5 answers 300 with a JSON object; 6 answers 404; 7 answers
    200 without an id; 8 answers 200 with an id of its own; 9 answers 503. *)
Definition api_mixed : Remote :=
  mkRemote grant
    (λ aid _,
       if (aid =? 5)%Z then Got (mkResponse 300 (JsonObject [("note", VStr "choices")]))
       else if (aid =? 6)%Z then Got (mkResponse 404 NotJson)
       else if (aid =? 7)%Z then Got (mkResponse 200 (JsonObject [("start", VStr "09:00")]))
       else if (aid =? 8)%Z then Got (mkResponse 200 (JsonObject [("id", VInt 8); ("start", VStr "10:00")]))
       else Got (mkResponse 503 NotJson)).

Definition job_row (job first last : Z) : Dict :=
  [("jobId", VInt job); ("FirstAppointmentID", VInt first);
   ("LastAppointmentID", VInt last)].

Definition job_columns : list string :=
  ["jobId"; "FirstAppointmentID"; "LastAppointmentID"].

(** FirstAppointmentID = [1,2], LastAppointmentID = [2,3] *)
Definition job_bootstrap : DataFrame :=
  mkDataFrame job_columns [job_row 100 1 2; job_row 101 2 3].

(** FirstAppointmentID = [1,2], LastAppointmentID = [3,4] *)
Definition job_four : DataFrame :=
  mkDataFrame job_columns [job_row 100 1 3; job_row 101 2 4].

(** FirstAppointmentID = [10,11], LastAppointmentID = [11,12] *)
Definition job_partial : DataFrame :=
  mkDataFrame job_columns [job_row 100 10 11; job_row 101 11 12].

(** FirstAppointmentID = [1, ..., n] and no other reference column. *)
Definition job_range (n : nat) : DataFrame :=
  mkDataFrame ["FirstAppointmentID"]
    ((λ i, [("FirstAppointmentID", VInt i)]) <$> seqZ 1 (Z.of_nat n)).

(** A job table without a reference column. *)
Definition job_no_refs : DataFrame :=
  mkDataFrame ["jobId"] [[("jobId", VInt 100)]].

(** A dump that already holds appointments 1 to 4. *)
Definition dump_four : DataFrame :=
  mkDataFrame ["id"; "active"]
    [[("id", VInt 1)]; [("id", VInt 2)]; [("id", VInt 3)]; [("id", VInt 4)]].

(** A folder with only the job file. *)
Definition first_run (job_df : DataFrame) : State :=
  mkState {[ JOB_FILE_NAME := job_df ]} 0.

(** A folder with both files. *)
Definition later_run (job_df dump_df : DataFrame) : State :=
  mkState (<[DUMP_FILE_NAME := dump_df]> {[ JOB_FILE_NAME := job_df ]}) 0.

(** An empty folder. *)
Definition no_files : State := mkState ∅ 0.

End Sample.

(** How a file that held [d] reads after the appends among the events [t]:
    untouched when there was none, and otherwise [d] with the table of all
    appended rows concatenated to it. *)
Definition grown (d : DataFrame) (t : list Event) (d' : DataFrame) : Prop :=
  (appends t = [] ∧ d' = d) ∨
  (appends t ≠ [] ∧
   d' = df_concat d (DataFrame_of_records (appended_rows t))).

(** The record has an id key. *)
Definition has_id (rec : Dict) : Prop := is_Some (dict_get "id" rec).

(** The token in hand after a token request got the reply [p]: the one
    returned, or none when [st_token] raised. *)
Definition current_token (p : Reply) : option Value :=
  match token_reply p with
  | Ok tok => Some tok
  | _ => None
  end.

(** Replays the events [t] from a point where [n] token requests have been
    made and [cur] is the token in hand, and ends with [n'] requests and
    [cur'] in hand: each token request replaces the token in hand by what
    the API then returns, and each fetch is made with the token in hand. *)
Fixpoint fresh (api : Remote) (n : nat) (cur : option Value) (t : list Event)
    (n' : nat) (cur' : option Value) : Prop :=
  match t with
  | [] => n' = n ∧ cur' = cur
  | EvToken :: t' =>
      fresh api (S n) (current_token (post_token api n)) t' n' cur'
  | EvFetch _ tok :: t' => cur = Some tok ∧ fresh api n cur t' n' cur'
  | _ :: t' => fresh api n cur t' n' cur'
  end.

(** ** Google credentials: [drive_service] *)

(** What [drive_service] reads of a credentials object. *)
Record Creds : Type := mkCreds {
  valid : bool;
  expired : bool;
  refresh_token : option string
}.

(** The truth value of [creds.refresh_token]: set and not empty. *)
Definition has_refresh_token (c : Creds) : bool :=
  match refresh_token c with
  | Some (String _ _) => true
  | _ => false
  end.

(** The two calls that get credentials: [creds.refresh(Request())], which
    updates the object or raises, and the browser flow
    [flow.run_local_server(port=0)], which returns credentials or raises. *)
Record Google : Type := mkGoogle {
  refresh : Creds → option Creds;
  run_local_server : option Creds
}.

Inductive AuthEvent : Type :=
| EvRefresh (c : Creds)
| EvFlow
| EvPickleDump (c : Creds).

(** [drive_service()], from the content of token.pkl ([None] when the file
    does not exist): the credentials the service is built with ([None] when
    a call raised), the content of token.pkl afterwards, and the calls
    made. *)
Definition drive_service (g : Google) (pkl : option Creds)
  : option Creds * option Creds * list AuthEvent :=
  let flow :=
    match run_local_server g with
    | Some c' => (Some c', Some c', [EvFlow; EvPickleDump c'])
    | None => (None, pkl, [EvFlow])
    end in
  match pkl with
  | Some creds =>
      if valid creds then (Some creds, pkl, [])
      else if expired creds && has_refresh_token creds then
        match refresh g creds with
        | Some c' => (Some c', Some c', [EvRefresh creds; EvPickleDump c'])
        | None => (None, pkl, [EvRefresh creds])
        end
      else flow
  | None => flow
  end.

(** ** More sample data *)

Module More.
Local Open Scope string_scope.





(** A job table with a blank reference cell. *)
Definition job_blank : DataFrame :=
  mkDataFrame Sample.job_columns
    [Sample.job_row 100 1 2; [("jobId", VInt 101); ("LastAppointmentID", VInt 3)]].


(** No token is ever granted. *)
Definition api_no_token : Remote :=
  mkRemote (λ _, Got (mkResponse 401 NotJson))
           (λ aid _, Got (mkResponse 200 (JsonObject [("id", VInt aid)]))).

(** Stored credentials that have expired and can be refreshed. *)
Definition creds_stale : Creds := mkCreds false true (Some "1//refresh").

(** Refreshing succeeds and keeps the refresh token; the browser flow is
    not completed. *)
Definition google_refreshes : Google :=
  mkGoogle (λ c, Some (mkCreds true false (refresh_token c))) None.

End More.

(** * Properties *)

(** ** First occurrences *)

Section Unique.
Context `{EqDecision A}.
Implicit Types (l seen : list A) (x : A).

Lemma unique_from_elem seen l x :
  x ∈ unique_from seen l ↔ x ∈ l ∧ x ∉ seen.
Proof.
  revert seen. induction l as [|y l IH]; intros seen; simpl.
  - split; [by intros ?%elem_of_nil | by intros [?%elem_of_nil _]].
  - destruct (decide (y ∈ seen)) as [Hy|Hy].
    + rewrite IH, elem_of_cons. split; [naive_solver|].
      intros [[->|?] ?]; [done|by split].
    + rewrite !elem_of_cons, IH, elem_of_cons.
      split; [naive_solver|]. intros [[->|?] ?]; [by left|].
      destruct (decide (x = y)) as [->|?]; [by left|right; naive_solver].
Qed.

Lemma unique_from_NoDup seen l : NoDup (unique_from seen l).
Proof.
  revert seen. induction l as [|y l IH]; intros seen; simpl.
  - constructor.
  - destruct (decide (y ∈ seen)); [apply IH|].
    constructor; [|apply IH].
    rewrite unique_from_elem, elem_of_cons. naive_solver.
Qed.

Lemma unique_from_sublist seen l : unique_from seen l `sublist_of` l.
Proof.
  revert seen. induction l as [|y l IH]; intros seen; simpl.
  - constructor.
  - destruct (decide (y ∈ seen)).
    + apply sublist_cons, IH.
    + apply sublist_skip, IH.
Qed.

Lemma unique_elem l x : x ∈ unique l ↔ x ∈ l.
Proof.
  unfold unique. rewrite unique_from_elem.
  split; [naive_solver|]. intros ?; split; [done|]. by intros ?%elem_of_nil.
Qed.

End Unique.

(** ** Coercion and the dump's ids *)

Lemma astype_int_Ok col zs :
  astype_int col = Ok zs → col = VInt <$> zs.
Proof.
  revert zs. induction col as [|v col IH]; intros zs; simpl.
  - by intros [= <-].
  - destruct v as [|z|s]; try done.
    destruct (astype_int col) as [zs'| |]; try done.
    intros [= <-]. simpl. by rewrite (IH zs').
Qed.

Lemma astype_int_no_exit col m : astype_int col ≠ Exit m.
Proof.
  induction col as [|v col IH]; simpl; [done|].
  destruct v; try done. by destruct (astype_int col).
Qed.

Lemma done_ids_elem dump_df done i :
  done_ids dump_df = Ok done →
  dump_has_id dump_df i → i ∈ done.
Proof.
  unfold done_ids, dump_has_id. destruct (df_empty dump_df) eqn:Hemp.
  - intros _ [Hc Hin]. unfold column, df_empty in *.
    destruct (columns dump_df); [by apply elem_of_nil in Hc|].
    destruct (rows dump_df); [|done]. by apply elem_of_nil in Hin.
  - destruct (decide (_ ∈ _)); [|done].
    destruct (astype_int _) as [zs| |] eqn:Hz; try done.
    intros [= <-] [_ Hin]. apply astype_int_Ok in Hz. rewrite Hz in Hin.
    apply list_elem_of_fmap in Hin as (z & [= ->] & Hin).
    by apply elem_of_list_to_set.
Qed.

(** ** [fetch_appt] *)

Lemma raise_for_status_no_exit r m : raise_for_status r ≠ Exit m.
Proof. unfold raise_for_status. by destruct (_ && _). Qed.

Lemma fetch_appt_no_exit api aid tok m : fetch_appt api aid tok ≠ Exit m.
Proof.
  unfold fetch_appt. destruct (get_appointment api aid tok) as [r|e]; [|done].
  destruct (status_code r =? 404); [done|].
  destruct (raise_for_status r) eqn:Hr; [|by apply raise_for_status_no_exit in Hr|done].
  by destruct (body r).
Qed.

Lemma fetched_failed api a :
  (∃ rec, fetch_appt api a.1 a.2 = Ok rec ∧ fetched api a = Some rec ∧ failed api a = None) ∨
  (∃ e, fetch_appt api a.1 a.2 = Raise e ∧ fetched api a = None ∧ failed api a = Some (a.1, e)).
Proof.
  unfold fetched, failed.
  destruct (fetch_appt api a.1 a.2) as [rec|m|e] eqn:Hf; [left|by apply fetch_appt_no_exit in Hf|right]; eauto.
Qed.

(** ** One iteration of the loop *)

Section Loop.
Variable B : Z.
Variable api : Remote.
Variable fid : string.

Lemma append_drive_csv_run s d df :
  drive s !! fid = Some d →
  append_drive_csv df fid s =
    (Ok tt, mkState (<[fid := df_concat d df]> (drive s)) (token_requests s),
     [EvAppend fid df]).
Proof.
  intros Hd. unfold append_drive_csv, bind, emit, read_drive_csv, drive_update.
  rewrite Hd; simpl. by rewrite Hd.
Qed.

Lemma append_drive_csv_missing s df :
  drive s !! fid = None →
  append_drive_csv df fid s = (Raise (DriveError fid), s, [EvAppend fid df]).
Proof.
  intros Hd. unfold append_drive_csv, bind, emit, read_drive_csv.
  by rewrite Hd.
Qed.

Lemma loop_body_raise aid l s e :
  fetch_appt api aid (token l) = Raise e →
  loop_body B api fid aid l s =
    (Ok l, s, [EvFetch aid (token l); EvWarning aid e]).
Proof. intros Hf. unfold loop_body, bind, emit, ret. by rewrite Hf. Qed.

Lemma loop_body_keep aid l s rec :
  fetch_appt api aid (token l) = Ok rec →
  B ≠ 0 → (count l + 1) mod B ≠ 0 →
  loop_body B api fid aid l s =
    (Ok (mkLoop (token l) (batch l ++ [rec]) (count l + 1)), s,
     [EvFetch aid (token l)]).
Proof.
  intros Hf HB Hm. unfold loop_body, bind, emit, ret. rewrite Hf.
  destruct (Z.eqb_spec B 0); [done|].
  by destruct (Z.eqb_spec ((count l + 1) mod B) 0).
Qed.

Lemma loop_body_flush aid l s rec d :
  fetch_appt api aid (token l) = Ok rec →
  B ≠ 0 → (count l + 1) mod B = 0 →
  drive s !! fid = Some d →
  loop_body B api fid aid l s =
    match token_reply (post_token api (token_requests s)) with
    | Ok tok' =>
        (Ok (mkLoop tok' [] (count l + 1)), flushed fid s d (batch l ++ [rec]),
         [EvFetch aid (token l);
          EvAppend fid (DataFrame_of_records (batch l ++ [rec]));
          EvToken; EvPrint (MsgUpdated (count l + 1))])
    | Exit m =>
        (Exit m, flushed fid s d (batch l ++ [rec]),
         [EvFetch aid (token l);
          EvAppend fid (DataFrame_of_records (batch l ++ [rec])); EvToken])
    | Raise e =>
        (Raise e, flushed fid s d (batch l ++ [rec]),
         [EvFetch aid (token l);
          EvAppend fid (DataFrame_of_records (batch l ++ [rec])); EvToken])
    end.
Proof.
  intros Hf HB Hm Hd. unfold loop_body. rewrite Hf.
  destruct (Z.eqb_spec B 0); [done|].
  destruct (Z.eqb_spec ((count l + 1) mod B) 0); [|done].
  unfold bind at 1. unfold emit at 1. unfold bind at 1.
  rewrite (append_drive_csv_run _ d) by done.
  unfold bind, st_token, print, emit, ret, flushed; simpl.
  by destruct (token_reply _).
Qed.

Lemma loop_body_zero aid l s rec :
  fetch_appt api aid (token l) = Ok rec →
  B = 0 →
  loop_body B api fid aid l s =
    (Raise ZeroDivisionError, s, [EvFetch aid (token l)]).
Proof.
  intros Hf HB. unfold loop_body, bind, emit, raise. rewrite Hf.
  by destruct (Z.eqb_spec B 0).
Qed.

End Loop.

(** ** Events of a concatenated run *)

Lemma appends_app t1 t2 : appends (t1 ++ t2) = appends t1 ++ appends t2.
Proof. apply omap_app. Qed.

Lemma appended_rows_app t1 t2 :
  appended_rows (t1 ++ t2) = appended_rows t1 ++ appended_rows t2.
Proof. unfold appended_rows. by rewrite appends_app, fmap_app, concat_app. Qed.

Lemma append_sizes_app t1 t2 :
  append_sizes (t1 ++ t2) = append_sizes t1 ++ append_sizes t2.
Proof. unfold append_sizes. by rewrite appends_app, fmap_app. Qed.

Lemma fetches_app t1 t2 : fetches (t1 ++ t2) = fetches t1 ++ fetches t2.
Proof. apply omap_app. Qed.

Lemma warnings_app t1 t2 : warnings (t1 ++ t2) = warnings t1 ++ warnings t2.
Proof. apply omap_app. Qed.

Lemma token_calls_app t1 t2 :
  token_calls (t1 ++ t2) = (token_calls t1 + token_calls t2)%nat.
Proof. unfold token_calls. by rewrite omap_app, length_app. Qed.

Lemma append_sizes_length t : length (append_sizes t) = length (appends t).
Proof. unfold append_sizes. by rewrite length_fmap. Qed.

Lemma appended_rows_length t :
  length (appended_rows t) = sum_list (append_sizes t).
Proof.
  unfold appended_rows, append_sizes.
  induction (appends t) as [|df dfs IH]; csimpl; [done|].
  by rewrite length_app, IH.
Qed.

Lemma bind_Ok_inv {A C} (m : M A) (k : A → M C) s c s' t :
  bind m k s = (Ok c, s', t) →
  ∃ a s1 t1 t2, m s = (Ok a, s1, t1) ∧ k a s1 = (Ok c, s', t2) ∧ t = t1 ++ t2.
Proof.
  unfold bind. destruct (m s) as [[[a| |] s1] t1]; try done.
  destruct (k a s1) as [[r s2] t2] eqn:Hk. intros [= -> -> <-].
  by exists a, s1, t1, t2.
Qed.

(** Unfolds the readings of a run and computes them on the events that are
    known. *)
Ltac observe :=
  unfold fetches, warnings, appended_rows, append_sizes, appends, token_calls
    in *;
  cbn [omap list_omap is_fetch is_warning is_append is_token fmap list_fmap
       concat length app fst snd rows DataFrame_of_records batch count token
       df_concat] in *.

(** ** The fetch loop *)

Section FetchLoop.
Variable B : Z.
Variable api : Remote.
Variable fid : string.

Lemma loop_body_Ok_inv aid l s d l1 s1 t1 :
  drive s !! fid = Some d →
  loop_body B api fid aid l s = (Ok l1, s1, t1) →
  (∃ e, fetch_appt api aid (token l) = Raise e ∧ l1 = l ∧ s1 = s ∧
        t1 = [EvFetch aid (token l); EvWarning aid e]) ∨
  (∃ rec, fetch_appt api aid (token l) = Ok rec ∧ (count l + 1) mod B ≠ 0 ∧
        l1 = mkLoop (token l) (batch l ++ [rec]) (count l + 1) ∧ s1 = s ∧
        t1 = [EvFetch aid (token l)]) ∨
  (∃ rec tok', fetch_appt api aid (token l) = Ok rec ∧
        (count l + 1) mod B = 0 ∧
        token_reply (post_token api (token_requests s)) = Ok tok' ∧
        l1 = mkLoop tok' [] (count l + 1) ∧
        s1 = flushed fid s d (batch l ++ [rec]) ∧
        t1 = [EvFetch aid (token l);
              EvAppend fid (DataFrame_of_records (batch l ++ [rec]));
              EvToken; EvPrint (MsgUpdated (count l + 1))]).
Proof.
  intros Hd.
  destruct (fetch_appt api aid (token l)) as [rec|m|e] eqn:Hf.
  - destruct (decide (B = 0)) as [HB|HB];
      [by rewrite (loop_body_zero B api fid aid l s rec)|].
    destruct (decide ((count l + 1) mod B = 0)) as [Hm|Hm].
    + rewrite (loop_body_flush B api fid aid l s rec d) by done.
      destruct (token_reply _) as [tok'| |] eqn:Ht; try done.
      intros [= <- <- <-]. right; right. by exists rec, tok'.
    + rewrite (loop_body_keep B api fid aid l s rec) by done.
      intros [= <- <- <-]. right; left. by exists rec.
  - by apply fetch_appt_no_exit in Hf.
  - rewrite (loop_body_raise B api fid aid l s e) by done.
    intros [= <- <- <-]. left. by exists e.
Qed.

Lemma flushed_lookup s d recs :
  drive (flushed fid s d recs) !! fid
  = Some (df_concat d (DataFrame_of_records recs)).
Proof. unfold flushed; simpl. apply lookup_insert_eq. Qed.

Lemma flushed_lookup_ne s d recs k :
  k ≠ fid → drive (flushed fid s d recs) !! k = drive s !! k.
Proof. intros. unfold flushed; simpl. by apply lookup_insert_ne. Qed.

(** What a completed loop has done, read off its events. *)
Lemma fetch_loop_Ok todo l s d l' s' t :
  drive s !! fid = Some d →
  fetch_loop B api fid todo l s = (Ok l', s', t) →
  (fetches t).*1 = todo ∧
  appended_rows t ++ batch l' = batch l ++ omap (fetched api) (fetches t) ∧
  warnings t = omap (failed api) (fetches t) ∧
  count l' = count l + Z.of_nat (length (omap (fetched api) (fetches t))) ∧
  (∃ d', drive s' !! fid = Some d' ∧ rows d' = rows d ++ appended_rows t) ∧
  (∀ k, k ≠ fid → drive s' !! k = drive s !! k) ∧
  token_calls t = length (appends t).
Proof.
  revert l s d t. induction todo as [|aid todo IH]; intros l s d t Hd; simpl.
  - unfold ret. intros [= <- <- <-]. simpl.
    rewrite !app_nil_r. repeat split; try done; try lia. by exists d.
  - intros (l1 & s1 & t1 & t2 & Hb & Hl & ->)%bind_Ok_inv.
    rewrite fetches_app, appended_rows_app, warnings_app, token_calls_app,
      appends_app, !omap_app, !length_app, fmap_app.
    destruct (loop_body_Ok_inv _ _ _ _ _ _ _ Hd Hb)
      as [(e & Hf & -> & -> & ->)|[(rec & Hf & Hm & -> & -> & ->)
         |(rec & tok' & Hf & Hm & Htok & -> & -> & ->)]].
    + destruct (IH _ _ _ _ Hd Hl) as (H1 & H2 & H3 & H4 & H5 & H6 & H7).
      observe. unfold fetched at 1 3, failed at 1. cbn [fst snd]. rewrite Hf.
      cbn [app length]. rewrite H1, H2, <- H3, H4.
      repeat split; try done.
    + destruct (IH _ _ _ _ Hd Hl) as (H1 & H2 & H3 & H4 & H5 & H6 & H7).
      observe. unfold fetched at 1 3, failed at 1. cbn [fst snd]. rewrite Hf.
      cbn [app length] in *. rewrite H1, <- H3, H4.
      repeat split; try done; [by rewrite H2, <- app_assoc | lia].
    + destruct (IH _ _ _ _ (flushed_lookup s d _) Hl)
        as (H1 & H2 & H3 & H4 & (d' & Hd' & Hr) & H6 & H7).
      observe. unfold fetched at 1 3, failed at 1. cbn [fst snd]. rewrite Hf.
      cbn [app length] in *. rewrite H1, <- H3, H4, H7, app_nil_r.
      repeat split; try done.
      * rewrite <- !app_assoc. cbn [app]. by rewrite H2.
      * lia.
      * exists d'. split; [done|]. rewrite Hr. by rewrite <- !app_assoc.
      * intros k Hk. rewrite H6 by done. by apply flushed_lookup_ne.
Qed.

(** The loop ends normally when tokens are always granted. *)
Lemma fetch_loop_total todo l s d :
  B ≠ 0 →
  tokens_granted api →
  drive s !! fid = Some d →
  ∃ l' s' t, fetch_loop B api fid todo l s = (Ok l', s', t).
Proof.
  intros HB Hg. revert l s d.
  induction todo as [|aid todo IH]; intros l s d Hd.
  - by exists l, s, [].
  - cbn [fetch_loop]. unfold bind.
    destruct (fetch_appt api aid (token l)) as [rec|m|e] eqn:Hf.
    + destruct (decide ((count l + 1) mod B = 0)) as [Hm|Hm].
      * rewrite (loop_body_flush B api fid aid l s rec d) by done.
        destruct (Hg (token_requests s)) as [tok' ->].
        destruct (IH (mkLoop tok' [] (count l + 1)) _ _
                    (flushed_lookup s d (batch l ++ [rec])))
          as (l' & s' & t & ->). eauto.
      * rewrite (loop_body_keep B api fid aid l s rec) by done.
        destruct (IH (mkLoop (token l) (batch l ++ [rec]) (count l + 1)) _ _ Hd)
          as (l' & s' & t & ->). eauto.
    + by apply fetch_appt_no_exit in Hf.
    + rewrite (loop_body_raise B api fid aid l s e) by done.
      destruct (IH l _ _ Hd) as (l' & s' & t & ->). eauto.
Qed.

Lemma succ_mod_keep c :
  0 < B → (c + 1) mod B ≠ 0 →
  (c + 1) mod B = c mod B + 1 ∧ (c + 1) / B = c / B.
Proof.
  intros HB Hm.
  pose proof (Z.div_mod c B ltac:(lia)) as Hc.
  pose proof (Z.mod_pos_bound c B HB) as Hr.
  assert (c mod B + 1 < B) as Hlt.
  { destruct (decide (c mod B + 1 = B)) as [Heq|]; [|lia].
    exfalso. apply Hm.
    replace (c + 1) with (0 + (c / B + 1) * B) by lia.
    by rewrite Z.mod_add by lia. }
  pose proof (Z.mod_pos_bound (c + 1) B HB) as Hr1.
  pose proof (Z.div_mod (c + 1) B ltac:(lia)) as Hc1.
  destruct (Z.div_mod_unique B ((c + 1) / B) (c / B)
              ((c + 1) mod B) (c mod B + 1)) as [Hq Hr']; [lia..|done].
Qed.

Lemma succ_mod_flush c :
  0 < B → (c + 1) mod B = 0 →
  c mod B + 1 = B ∧ (c + 1) / B = c / B + 1.
Proof.
  intros HB Hm.
  pose proof (Z.div_mod c B ltac:(lia)) as Hc.
  pose proof (Z.mod_pos_bound c B HB) as Hr.
  pose proof (Z.div_mod (c + 1) B ltac:(lia)) as Hc1.
  rewrite Hm in Hc1.
  assert (B * ((c + 1) / B - c / B) = c mod B + 1) as Hk by lia.
  assert ((c + 1) / B - c / B = 1) by nia. lia.
Qed.

(** Every flush inside the loop writes exactly [B] rows, and the buffer
    holds [count mod B] rows; [count / B] counts the flushes. *)
Lemma fetch_loop_sizes todo l s d l' s' t :
  0 < B →
  drive s !! fid = Some d →
  Z.of_nat (length (batch l)) = count l mod B →
  fetch_loop B api fid todo l s = (Ok l', s', t) →
  append_sizes t
    = replicate (Z.to_nat (count l' / B - count l / B)) (Z.to_nat B) ∧
  Z.of_nat (length (batch l')) = count l' mod B ∧
  count l / B ≤ count l' / B.
Proof.
  intros HB. revert l s d t.
  induction todo as [|aid todo IH]; intros l s d t Hd Hlen; simpl.
  - unfold ret. intros [= <- <- <-].
    rewrite Z.sub_diag. by repeat split.
  - intros (l1 & s1 & t1 & t2 & Hb & Hl & ->)%bind_Ok_inv.
    rewrite append_sizes_app.
    destruct (loop_body_Ok_inv _ _ _ _ _ _ _ Hd Hb)
      as [(e & Hf & -> & -> & ->)|[(rec & Hf & Hm & -> & -> & ->)
         |(rec & tok' & Hf & Hm & Htok & -> & -> & ->)]].
    + by destruct (IH _ _ _ _ Hd Hlen Hl) as (H1 & H2 & H3).
    + destruct (succ_mod_keep (count l) HB Hm) as [Hmod Hdiv].
      destruct (IH (mkLoop (token l) (batch l ++ [rec]) (count l + 1)) _ _ _ Hd
                  ltac:(cbn [batch count]; rewrite length_app; cbn [length]; lia) Hl)
        as (H1 & H2 & H3).
      cbn [count] in *. rewrite Hdiv in *. by repeat split.
    + destruct (succ_mod_flush (count l) HB Hm) as [Hmod Hdiv].
      destruct (IH (mkLoop tok' [] (count l + 1)) _ _ _ (flushed_lookup s d _)
                  ltac:(cbn [batch count length]; lia) Hl)
        as (H1 & H2 & H3).
      cbn [count] in *. rewrite Hdiv in *. rewrite H1.
      repeat split; [|done|lia].
      replace (count l' / B - count l / B)
        with (Z.succ (count l' / B - (count l / B + 1))) by lia.
      rewrite Z2Nat.inj_succ by lia. cbn.
      f_equal. rewrite length_app. cbn. lia.
Qed.

End FetchLoop.

(** ** The whole run *)

Section Run.
Variable B : Z.
Variable api : Remote.

Lemma booted_dump s : drive (booted s) !! DUMP_FILE_NAME = Some (dump_read s).
Proof.
  unfold booted, dump_read.
  destruct (drive s !! DUMP_FILE_NAME) eqn:Hd; simpl; [done|].
  apply lookup_insert_eq.
Qed.

Lemma booted_job s : drive (booted s) !! JOB_FILE_NAME = drive s !! JOB_FILE_NAME.
Proof.
  unfold booted. destruct (drive s !! DUMP_FILE_NAME); simpl; [done|].
  by apply lookup_insert_ne.
Qed.

Lemma booted_token_requests s : token_requests (booted s) = token_requests s.
Proof. unfold booted. by destruct (drive s !! DUMP_FILE_NAME). Qed.

(** [main] without the job file. *)
Lemma main_no_job s :
  drive s !! JOB_FILE_NAME = None →
  main B api s = (Exit JobFileNotFound, s, []).
Proof.
  intros Hj. unfold main, bind, find_file_id, sys_exit. by rewrite Hj.
Qed.

(** [main] with the job file: bootstrap, [todo_ids], then the fetch. *)
Lemma main_unfold s job_df :
  drive s !! JOB_FILE_NAME = Some job_df →
  main B api s =
    match todo_ids job_df (dump_read s) with
    | Ok [] => (Ok tt, booted s, created s ++ [EvPrint MsgUpToDate])
    | Ok (aid :: todo) =>
        after_boot s (fetch_all B api DUMP_FILE_NAME (aid :: todo) (booted s))
    | Exit m => (Exit m, booted s, created s)
    | Raise e => (Raise e, booted s, created s)
    end.
Proof.
  intros Hj. pose proof (booted_dump s) as Hbd.
  pose proof (booted_job s) as Hbj. rewrite Hj in Hbj.
  unfold after_boot, created, booted, dump_read in *.
  unfold main, find_file_id, ensure_dump, drive_create, read_drive_csv,
    lift, print, emit, ret, sys_exit.
  unfold bind. rewrite Hj.
  destruct (drive s !! DUMP_FILE_NAME) as [dump_df|] eqn:Hd;
    cbn [drive token_requests default from_option id] in *.
  - rewrite Hj, Hd.
    destruct (todo_ids job_df dump_df) as [[|aid todo]| |]; try done.
    by destruct (fetch_all _ _ _ _ _) as [[r s'] t].
  - rewrite Hbj. cbn [drive token_requests]. rewrite Hbd.
    destruct (todo_ids job_df header_only) as [[|aid todo]| |]; try done.
    by destruct (fetch_all _ _ _ _ _) as [[r s'] t].
Qed.

(** [fetch_all] when everything it calls returns. *)
Lemma fetch_all_run fid todo s tok0 l s2 tl d2 :
  token_reply (post_token api (token_requests s)) = Ok tok0 →
  fetch_loop B api fid todo (mkLoop tok0 [] 0) (authed s) = (Ok l, s2, tl) →
  drive s2 !! fid = Some d2 →
  fetch_all B api fid todo s =
    (Ok tt,
     mkState (<[fid := df_concat d2 (DataFrame_of_records (batch l))]> (drive s2))
             (token_requests s2),
     [EvPrint (MsgToFetch (length todo)); EvToken] ++ tl ++
     [EvAppend fid (DataFrame_of_records (batch l));
      EvPrint (MsgFinished (count l))]).
Proof.
  intros Htok Hl Hd2. unfold fetch_all, print, emit, st_token. unfold bind.
  rewrite Htok. fold (authed s). rewrite Hl.
  rewrite (append_drive_csv_run fid s2 d2) by done.
  by cbn [app].
Qed.

(** A [fetch_all] that returned: its token, its loop and its final flush. *)
Lemma fetch_all_Ok_inv fid todo s s' t :
  fetch_all B api fid todo s = (Ok tt, s', t) →
  ∃ tok0 l s2 tl d2,
    token_reply (post_token api (token_requests s)) = Ok tok0 ∧
    fetch_loop B api fid todo (mkLoop tok0 [] 0) (authed s) = (Ok l, s2, tl) ∧
    drive s2 !! fid = Some d2 ∧
    s' = mkState (<[fid := df_concat d2 (DataFrame_of_records (batch l))]> (drive s2))
                 (token_requests s2) ∧
    t = [EvPrint (MsgToFetch (length todo)); EvToken] ++ tl ++
        [EvAppend fid (DataFrame_of_records (batch l));
         EvPrint (MsgFinished (count l))].
Proof.
  intros Hrun.
  assert (fetch_all B api fid todo s =
    match token_reply (post_token api (token_requests s)) with
    | Ok tok0 =>
        match fetch_loop B api fid todo (mkLoop tok0 [] 0) (authed s) with
        | (Ok l, s2, tl) =>
            match drive s2 !! fid with
            | Some d2 =>
                (Ok tt,
                 mkState (<[fid := df_concat d2 (DataFrame_of_records (batch l))]>
                            (drive s2)) (token_requests s2),
                 [EvPrint (MsgToFetch (length todo)); EvToken] ++ tl ++
                 [EvAppend fid (DataFrame_of_records (batch l));
                  EvPrint (MsgFinished (count l))])
            | None =>
                (Raise (DriveError fid), s2,
                 [EvPrint (MsgToFetch (length todo)); EvToken] ++ tl ++
                 [EvAppend fid (DataFrame_of_records (batch l))])
            end
        | (Exit m, s2, tl) =>
            (Exit m, s2, [EvPrint (MsgToFetch (length todo)); EvToken] ++ tl)
        | (Raise e, s2, tl) =>
            (Raise e, s2, [EvPrint (MsgToFetch (length todo)); EvToken] ++ tl)
        end
    | Exit m => (Exit m, authed s, [EvPrint (MsgToFetch (length todo)); EvToken])
    | Raise e => (Raise e, authed s, [EvPrint (MsgToFetch (length todo)); EvToken])
    end) as Heq.
  { unfold fetch_all, print, emit, st_token. unfold bind.
    fold (authed s).
    destruct (token_reply _) as [tok0| |]; [|done..].
    destruct (fetch_loop _ _ _ _ _ _) as [[[l| |] s2] tl]; [|done..].
    destruct (drive s2 !! fid) as [d2|] eqn:Hd2.
    - by rewrite (append_drive_csv_run fid s2 d2) by done.
    - rewrite (append_drive_csv_missing fid s2) by done.
      by cbn [app]. }
  rewrite Heq in Hrun. clear Heq.
  destruct (token_reply _) as [tok0| |]; [|done..].
  destruct (fetch_loop _ _ _ _ _ _) as [[[l| |] s2] tl] eqn:Hl; [|done..].
  destruct (drive s2 !! fid) as [d2|] eqn:Hd2; [|done].
  injection Hrun as <- <-. by exists tok0, l, s2, tl, d2.
Qed.

(** What a completed [fetch_all] has done. *)
Lemma fetch_all_completed fid todo s d s' t :
  drive s !! fid = Some d →
  fetch_all B api fid todo s = (Ok tt, s', t) →
  (fetches t).*1 = todo ∧
  appended_rows t = omap (fetched api) (fetches t) ∧
  warnings t = omap (failed api) (fetches t) ∧
  (∃ d', drive s' !! fid = Some d' ∧ rows d' = rows d ++ appended_rows t) ∧
  (∀ k, k ≠ fid → drive s' !! k = drive s !! k) ∧
  token_calls t = length (appends t) ∧
  ∃ t0 final,
    t = t0 ++ [EvAppend fid (DataFrame_of_records final);
               EvPrint (MsgFinished (Z.of_nat (length (appended_rows t))))].
Proof.
  intros Hd (tok0 & l & s2 & tl & d2 & Htok & Hl & Hd2 & -> & ->)%fetch_all_Ok_inv.
  destruct (fetch_loop_Ok B api fid todo _ (authed s) d l s2 tl Hd Hl)
    as (H1 & H2 & H3 & H4 & (d' & Hd' & Hr) & H6 & H7).
  rewrite Hd2 in Hd'. injection Hd' as <-.
  assert (appended_rows
            ([EvPrint (MsgToFetch (length todo)); EvToken] ++ tl ++
             [EvAppend fid (DataFrame_of_records (batch l));
              EvPrint (MsgFinished (count l))])
          = omap (fetched api) (fetches tl)) as Hrows.
  { rewrite !appended_rows_app. observe. by rewrite app_nil_r. }
  rewrite Hrows.
  rewrite !fetches_app, !warnings_app, !token_calls_app, !appends_app.
  observe. rewrite !app_nil_r, length_app. cbn [length].
  repeat split; try done.
  - exists (df_concat d2 (DataFrame_of_records (batch l))).
    split; [apply lookup_insert_eq|].
    cbn [df_concat rows DataFrame_of_records]. rewrite Hr, <- app_assoc.
    by rewrite H2.
  - intros k Hk. cbn [drive]. rewrite lookup_insert_ne by done. by apply H6.
  - rewrite H7. lia.
  - exists ([EvPrint (MsgToFetch (length todo)); EvToken] ++ tl), (batch l).
    rewrite <- app_assoc. rewrite H4. by rewrite Z.add_0_l.
Qed.

Lemma created_quiet s :
  fetches (created s) = [] ∧ appends (created s) = [] ∧
  warnings (created s) = [] ∧ token_calls (created s) = 0%nat.
Proof. unfold created. by destruct (drive s !! DUMP_FILE_NAME). Qed.

(** What a completed [main] has done. *)
Lemma main_completed s job_df s' t :
  drive s !! JOB_FILE_NAME = Some job_df →
  main B api s = (Ok tt, s', t) →
  ∃ todo,
    todo_ids job_df (dump_read s) = Ok todo ∧
    (fetches t).*1 = todo ∧
    appended_rows t = omap (fetched api) (fetches t) ∧
    warnings t = omap (failed api) (fetches t) ∧
    (∃ d', drive s' !! DUMP_FILE_NAME = Some d' ∧
           rows d' = rows (dump_read s) ++ appended_rows t) ∧
    drive s' !! JOB_FILE_NAME = Some job_df ∧
    (todo ≠ [] →
     ∃ t0 final,
       t = t0 ++ [EvAppend DUMP_FILE_NAME (DataFrame_of_records final);
                  EvPrint (MsgFinished (Z.of_nat (length (appended_rows t))))]).
Proof.
  intros Hj. rewrite (main_unfold s job_df Hj).
  destruct (created_quiet s) as (Hc1 & Hc2 & Hc3 & Hc4).
  destruct (todo_ids job_df (dump_read s)) as [[|aid todo]| |]; try done.
  - intros [= <- <-]. exists []. rewrite fetches_app, warnings_app.
    unfold appended_rows. rewrite appends_app, Hc1, Hc2, Hc3. observe.
    repeat split; try done.
    + exists (dump_read s). rewrite app_nil_r. split; [apply booted_dump|done].
    + by rewrite booted_job.
  - unfold after_boot.
    destruct (fetch_all B api DUMP_FILE_NAME (aid :: todo) (booted s))
      as [[r s2] t2] eqn:Hfa.
    cbn [fst snd]. intros [= -> -> <-].
    destruct (fetch_all_completed _ _ _ _ _ _ (booted_dump s) Hfa)
      as (H1 & H2 & H3 & H4 & H5 & H6 & (t0 & final & Ht)).
    exists (aid :: todo). rewrite fetches_app, warnings_app.
    assert (appended_rows (created s ++ t2) = appended_rows t2) as ->.
    { rewrite appended_rows_app. unfold appended_rows at 1. by rewrite Hc2. }
    rewrite Hc1, Hc3. cbn [app].
    repeat split; try done.
    + rewrite H5 by done. by rewrite booted_job.
    + intros _. exists (created s ++ t0), final.
      rewrite <- app_assoc. by rewrite <- Ht.
Qed.

End Run.

(** ** The IDs to fetch *)

Lemma todo_ids_Ok job_df dump_df todo :
  todo_ids job_df dump_df = Ok todo →
  ∃ done ids,
    done_ids dump_df = Ok done ∧
    id_cols job_df ≠ [] ∧
    astype_int (dropna (stacked job_df)) = Ok ids ∧
    todo = filter (λ i, i ∉ done) (unique ids).
Proof.
  unfold todo_ids. destruct (done_ids dump_df) as [dn| |]; [|done..].
  destruct (id_cols job_df) eqn:Hc; try done.
  destruct (astype_int _) as [ids| |]; try done.
  intros [= <-]. by exists dn, ids.
Qed.

Lemma todo_ids_NoDup job_df dump_df todo :
  todo_ids job_df dump_df = Ok todo → NoDup todo.
Proof.
  intros (done & ids & _ & _ & _ & ->)%todo_ids_Ok.
  apply NoDup_filter, unique_from_NoDup.
Qed.

Lemma filter_none {A} (P : A → Prop) `{∀ x, Decision (P x)} (l : list A) :
  (∀ x, x ∈ l → ¬ P x) → filter P l = [].
Proof.
  induction l as [|x l IH]; intros Hl; [done|].
  rewrite filter_cons_False by (apply Hl; left).
  apply IH. intros y Hy. apply Hl. by right.
Qed.

Lemma todo_ids_excludes job_df dump_df todo i :
  todo_ids job_df dump_df = Ok todo →
  dump_has_id dump_df i → i ∉ todo.
Proof.
  intros (dn & ids & Hdn & _ & _ & ->)%todo_ids_Ok Hi.
  rewrite list_elem_of_filter. intros [Hni _]. apply Hni.
  by apply (done_ids_elem dump_df).
Qed.

Lemma id_cols_none job_df :
  (∀ c, c ∈ columns job_df →
        lower c ≠ "firstappointmentid"%string ∧
        lower c ≠ "lastappointmentid"%string) →
  id_cols job_df = [].
Proof.
  intros Hc. apply filter_none. intros c Hin.
  unfold is_id_col. intros Hid%bool_decide_eq_true.
  destruct (Hc c Hin) as [H1 H2].
  apply elem_of_cons in Hid as [?|Hid]; [done|].
  apply elem_of_cons in Hid as [?|Hid]; [done|].
  by apply elem_of_nil in Hid.
Qed.

(** * The properties of the specification *)

(** ** Idempotence and no duplicate fetch *)

(** C3. No ID present in the dump's id column appears in the computed
    TodoSet; and when the dump already holds every ID the job table refers
    to, the TodoSet is empty and the run appends nothing: it prints
    up-to-date and leaves the Drive folder as it was. *)
Theorem no_duplicate_fetch B api s job_df dump_df todo :
  todo_ids job_df dump_df = Ok todo →
  (∀ i, dump_has_id dump_df i → i ∉ todo) ∧
  ((∀ v, v ∈ dropna (stacked job_df) →
         ∃ i, v = VInt i ∧ dump_has_id dump_df i) →
   todo = [] ∧
   (drive s !! JOB_FILE_NAME = Some job_df →
    drive s !! DUMP_FILE_NAME = Some dump_df →
    main B api s = (Ok tt, s, [EvPrint MsgUpToDate]))).
Proof.
  intros Htodo. split; [intros i; by apply (todo_ids_excludes job_df)|].
  intros Hall.
  assert (todo = []) as ->.
  { destruct (todo_ids_Ok _ _ _ Htodo) as (dn & ids & Hdn & _ & Hids & ->).
    apply astype_int_Ok in Hids.
    apply filter_none. intros i Hi Hni. apply Hni.
    apply (proj1 (unique_elem ids i)) in Hi.
    assert (VInt i ∈ dropna (stacked job_df)) as Hv.
    { rewrite Hids. by apply list_elem_of_fmap_2. }
    destruct (Hall (VInt i) Hv) as (j & [= <-] & Hj).
    by apply (done_ids_elem dump_df). }
  split; [done|]. intros Hj Hd.
  rewrite (main_unfold B api s job_df Hj).
  unfold dump_read, booted, created. rewrite Hd. cbn [default from_option id].
  by rewrite Htodo.
Qed.

(** Membership in a list that is written out. *)
Ltac in_list := apply list_elem_of_In; vm_compute; tauto.

Lemma no_duplicate_fetch_witness :
  todo_ids Sample.job_four Sample.dump_four = Ok [] ∧
  main BATCH_SIZE_default Sample.api_ok (Sample.later_run Sample.job_four Sample.dump_four)
  = (Ok tt, Sample.later_run Sample.job_four Sample.dump_four,
     [EvPrint MsgUpToDate]).
Proof.
  assert (todo_ids Sample.job_four Sample.dump_four = Ok []) as Ht
    by (vm_compute; reflexivity).
  split; [exact Ht|].
  destruct (no_duplicate_fetch BATCH_SIZE_default Sample.api_ok
              (Sample.later_run Sample.job_four Sample.dump_four)
              Sample.job_four Sample.dump_four [] Ht) as [_ Hrun].
  apply Hrun; [|vm_compute; reflexivity..].
  intros v Hv. apply list_elem_of_In in Hv. vm_compute in Hv.
  destruct Hv as [<-|[<-|[<-|[<-|[]]]]];
    eexists; (split; [reflexivity|]); split; in_list.
Defined.

(** ** The appointment fetch *)

(** C4, as the code has it.  A 404 gives the sentinel record with the
    requested id and status NOT_FOUND; any other 4xx or 5xx status raises;
    with any remaining status (2xx, and also 1xx and 3xx) a body that is a
    JSON object is returned as parsed, with the requested id added only
    when the object has no id key. *)
Theorem fetch_appt_cases api aid tok r :
  get_appointment api aid tok = Got r →
  (status_code r = 404 →
   fetch_appt api aid tok
   = Ok [("id"%string, VInt aid); ("status"%string, VStr "NOT_FOUND")]) ∧
  (status_code r ≠ 404 → 400 ≤ status_code r < 600 →
   fetch_appt api aid tok = Raise (HTTPError (status_code r))) ∧
  (¬ (400 ≤ status_code r < 600) →
   ∀ data, body r = JsonObject data →
     ∃ rec, fetch_appt api aid tok = Ok rec ∧
       (∀ v, dict_get "id" data = Some v → rec = data) ∧
       (dict_get "id" data = None →
        rec = data ++ [("id"%string, VInt aid)] ∧
        dict_get "id" rec = Some (VInt aid)) ∧
       (∀ k, k ≠ "id"%string → dict_get k rec = dict_get k data)).
Proof.
  intros Hget. unfold fetch_appt, raise_for_status. rewrite Hget.
  repeat split.
  - intros ->. done.
  - intros Hne Hrange.
    destruct (Z.eqb_spec (status_code r) 404); [done|].
    destruct (Z.leb_spec 400 (status_code r)); [|lia].
    destruct (Z.ltb_spec (status_code r) 600); [|lia]. done.
  - intros Hrange data Hbody.
    destruct (Z.eqb_spec (status_code r) 404); [lia|].
    assert ((400 <=? status_code r) && (status_code r <? 600) = false) as ->.
    { apply andb_false_iff.
      destruct (Z.leb_spec 400 (status_code r)); [|by left].
      destruct (Z.ltb_spec (status_code r) 600); [lia|by right]. }
    rewrite Hbody. eexists; split; [done|]. unfold dict_setdefault.
    split; [|split].
    + by intros v ->.
    + intros Hnone. rewrite Hnone. split; [done|].
      clear Hbody.
      induction data as [|[k v] data IH]; simpl in *; [done|].
      destruct (decide (k = "id"%string)); [done|]. by apply IH.
    + intros k Hk. destruct (dict_get "id" data) eqn:Hid; [done|].
      clear Hid Hbody. induction data as [|[k' v] data IH]; simpl.
      * by case_decide.
      * by destruct (decide (k' = k)).
Qed.

Lemma fetch_appt_cases_witness :
  fetch_appt Sample.api_mixed 6 (VInt 0)
  = Ok [("id"%string, VInt 6); ("status"%string, VStr "NOT_FOUND")] ∧
  fetch_appt Sample.api_mixed 9 (VInt 0) = Raise (HTTPError 503) ∧
  fetch_appt Sample.api_mixed 7 (VInt 0)
  = Ok [("start"%string, VStr "09:00"); ("id"%string, VInt 7)] ∧
  fetch_appt Sample.api_mixed 8 (VInt 0)
  = Ok [("id"%string, VInt 8); ("start"%string, VStr "10:00")].
Proof.
  split; [|split; [|split]].
  - by apply (fetch_appt_cases Sample.api_mixed 6 (VInt 0)
                (mkResponse 404 NotJson) eq_refl).
  - apply (fetch_appt_cases Sample.api_mixed 9 (VInt 0)
             (mkResponse 503 NotJson) eq_refl); simpl; lia.
  - destruct (fetch_appt_cases Sample.api_mixed 7 (VInt 0)
                (mkResponse 200 (JsonObject [("start"%string, VStr "09:00")]))
                eq_refl) as (_ & _ & H).
    destruct (H ltac:(simpl; lia) _ eq_refl) as (rec & -> & _ & Hadd & _).
    by destruct (Hadd eq_refl) as [-> _].
  - destruct (fetch_appt_cases Sample.api_mixed 8 (VInt 0)
                (mkResponse 200 (JsonObject [("id"%string, VInt 8);
                                             ("start"%string, VStr "10:00")]))
                eq_refl) as (_ & _ & H).
    destruct (H ltac:(simpl; lia) _ eq_refl) as (rec & -> & Hkeep & _).
    by rewrite (Hkeep (VInt 8) eq_refl).
Defined.

(** C4 as stated fails: a response that is neither 2xx nor 404 need not
    raise.  Appointment 5 answers 300 with a JSON object, and [fetch_appt]
    returns that object with the id added. *)
Lemma fetch_appt_non_2xx_returns :
  ¬ (∀ api aid tok r,
       get_appointment api aid tok = Got r →
       status_code r ≠ 404 → ¬ (200 ≤ status_code r < 300) →
       ∃ e, fetch_appt api aid tok = Raise e).
Proof.
  intros Hclaim.
  destruct (Hclaim Sample.api_mixed 5 (VInt 0)
              (mkResponse 300 (JsonObject [("note"%string, VStr "choices")]))
              eq_refl) as [e He]; [simpl; lia..|].
  vm_compute in He. discriminate He.
Qed.

(** ** Nothing to fetch *)

(** C6. When the computed TodoSet is empty the run prints up-to-date and
    returns (exit status 0) without having asked for a token or fetched an
    appointment. *)
Theorem up_to_date_without_api B api s job_df :
  drive s !! JOB_FILE_NAME = Some job_df →
  todo_ids job_df (dump_read s) = Ok [] →
  main B api s = (Ok tt, booted s, created s ++ [EvPrint MsgUpToDate]) ∧
  exit_code (main B api s).1.1 = 0 ∧
  token_calls (main B api s).2 = 0%nat ∧
  fetches (main B api s).2 = [] ∧
  appends (main B api s).2 = [] ∧
  token_requests (main B api s).1.2 = token_requests s.
Proof.
  intros Hj Htodo. rewrite (main_unfold B api s job_df Hj), Htodo.
  destruct (created_quiet s) as (Hc1 & Hc2 & Hc3 & Hc4).
  cbn [fst snd exit_code].
  rewrite token_calls_app, fetches_app, appends_app, Hc1, Hc2, Hc4.
  by rewrite booted_token_requests.
Qed.

Lemma up_to_date_without_api_witness :
  main BATCH_SIZE_default Sample.api_ok (Sample.later_run Sample.job_four Sample.dump_four)
  = (Ok tt, Sample.later_run Sample.job_four Sample.dump_four,
     [EvPrint MsgUpToDate]).
Proof.
  exact (proj1 (up_to_date_without_api BATCH_SIZE_default Sample.api_ok
                  (Sample.later_run Sample.job_four Sample.dump_four)
                  Sample.job_four
                  ltac:(vm_compute; reflexivity)
                  ltac:(vm_compute; reflexivity))).
Defined.

(** ** Configuration errors *)

(** C9. Without the job file, or with a job table that has no column named
    firstappointmentid or lastappointmentid in any letter case, the run ends
    with a message and exit status 1 before any token request, fetch or
    append: [sys.exit] with the message for the missing file, and with the
    message for the missing columns once the dump's ids have been read. *)
Theorem configuration_errors_exit B api s :
  drive s !! JOB_FILE_NAME = None ∨
  (∃ job_df, drive s !! JOB_FILE_NAME = Some job_df ∧
     ∀ c, c ∈ columns job_df →
          lower c ≠ "firstappointmentid"%string ∧
          lower c ≠ "lastappointmentid"%string) →
  exit_code (main B api s).1.1 = 1 ∧
  fetches (main B api s).2 = [] ∧
  appends (main B api s).2 = [] ∧
  token_calls (main B api s).2 = 0%nat ∧
  (drive s !! JOB_FILE_NAME = None →
   main B api s = (Exit JobFileNotFound, s, [])) ∧
  (∀ dn, is_Some (drive s !! JOB_FILE_NAME) →
         done_ids (dump_read s) = Ok dn →
         main B api s = (Exit LacksIdColumns, booted s, created s)).
Proof.
  destruct (created_quiet s) as (Hc1 & Hc2 & Hc3 & Hc4).
  intros [Hj|(job_df & Hj & Hcols%id_cols_none)].
  - rewrite (main_no_job B api s Hj). rewrite Hj.
    repeat split; done.
  - rewrite (main_unfold B api s job_df Hj). rewrite Hj.
    unfold todo_ids. rewrite Hcols.
    destruct (done_ids (dump_read s)) as [dn| |]; cbn [fst snd exit_code];
      rewrite ?Hc1, ?Hc2, ?Hc4; repeat split; done.
Qed.

Lemma configuration_errors_exit_witness :
  main BATCH_SIZE_default Sample.api_ok Sample.no_files
  = (Exit JobFileNotFound, Sample.no_files, []) ∧
  main BATCH_SIZE_default Sample.api_ok (Sample.first_run Sample.job_no_refs)
  = (Exit LacksIdColumns, booted (Sample.first_run Sample.job_no_refs),
     [EvCreate DUMP_FILE_NAME header_only; EvPrint MsgCreated]).
Proof.
  split.
  - apply (configuration_errors_exit BATCH_SIZE_default Sample.api_ok Sample.no_files).
    + left. vm_compute; reflexivity.
    + vm_compute; reflexivity.
  - assert (drive (Sample.first_run Sample.job_no_refs) !! JOB_FILE_NAME
            = Some Sample.job_no_refs) as Hj by (vm_compute; reflexivity).
    assert (∀ c, c ∈ columns Sample.job_no_refs →
                 lower c ≠ "firstappointmentid"%string ∧
                 lower c ≠ "lastappointmentid"%string) as Hc.
    { intros c Hin. apply list_elem_of_In in Hin. vm_compute in Hin.
      destruct Hin as [<-|[]]. by vm_compute. }
    destruct (configuration_errors_exit BATCH_SIZE_default Sample.api_ok
                (Sample.first_run Sample.job_no_refs)
                (or_intror (ex_intro _ Sample.job_no_refs (conj Hj Hc))))
      as (_ & _ & _ & _ & _ & Hexit).
    apply (Hexit ∅); [by exists Sample.job_no_refs|vm_compute; reflexivity].
Defined.

(** ** Requests and the rows they give *)

Section Requests.
Context {K V R : Type} `{EqDecision K}.
Implicit Types (l : list (K * V)) (f : K * V → option R).

(** With distinct keys a request is the only one for its key. *)
Lemma filter_key_NoDup l k v :
  NoDup l.*1 → (k, v) ∈ l → filter (λ a, a.1 = k) l = [(k, v)].
Proof.
  induction l as [|[k' v'] l IH]; csimpl; [by intros _ ?%elem_of_nil|].
  intros [Hk' Hnd]%NoDup_cons [[= <- <-]|Hin]%elem_of_cons.
  - rewrite filter_cons_True by done. f_equal.
    apply filter_none. intros [k2 v2] Hin2 Heq. simpl in Heq. subst k2.
    apply Hk'. by apply (list_elem_of_fmap_2' fst _ (k, v2)).
  - rewrite filter_cons_False; [by apply IH|]. simpl. intros ->.
    apply Hk'. by apply (list_elem_of_fmap_2' fst _ (k, v)).
Qed.

(** Requests that give nothing can be left out. *)
Lemma omap_filter_none f l (P : K * V → Prop) `{∀ a, Decision (P a)} :
  (∀ a, a ∈ l → ¬ P a → f a = None) → omap f (filter P l) = omap f l.
Proof.
  induction l as [|a l IH]; intros Hf; [done|].
  destruct (decide (P a)) as [HP|HP].
  - rewrite filter_cons_True by done. csimpl.
    rewrite IH; [done|]. intros b Hb. apply Hf. by right.
  - rewrite filter_cons_False by done. csimpl.
    rewrite (Hf a) by (done || left). apply IH.
    intros b Hb. apply Hf. by right.
Qed.

(** The results are those of a subsequence of the requests, one for one. *)
Lemma omap_sublist_Forall2 f l :
  ∃ reqs, reqs `sublist_of` l ∧ Forall2 (λ a r, f a = Some r) reqs (omap f l).
Proof.
  induction l as [|a l (reqs & Hsub & Hall)]; csimpl.
  - exists []. by split; constructor.
  - destruct (f a) as [r|] eqn:Ha.
    + exists (a :: reqs). split; [by apply sublist_skip|by constructor].
    + exists reqs. split; [by apply sublist_cons|done].
Qed.

(** Requests that all give a result give as many results. *)
Lemma omap_length_all f l :
  (∀ a, a ∈ l → is_Some (f a)) → length (omap f l) = length l.
Proof.
  induction l as [|a l IH]; intros Hf; csimpl; [done|].
  destruct (Hf a) as [r ->]; [by left|]. csimpl.
  rewrite IH; [done|]. intros b Hb. apply Hf. by right.
Qed.

End Requests.

(** ** Every record once *)

(** C10. In a run that completes, the IDs of the TodoSet are requested once
    each and in order; the rows appended over the whole run are exactly the
    records those requests returned, each once and in order, and they are
    the rows the dump file has gained; the last append holds what the
    appends inside the loop had not yet written; and the count printed at
    the end is the number of rows appended. *)
Theorem each_record_appended_once B api s job_df s' t :
  drive s !! JOB_FILE_NAME = Some job_df →
  main B api s = (Ok tt, s', t) →
  ∃ todo,
    todo_ids job_df (dump_read s) = Ok todo ∧
    NoDup todo ∧ (fetches t).*1 = todo ∧
    appended_rows t = omap (fetched api) (fetches t) ∧
    (∃ d', drive s' !! DUMP_FILE_NAME = Some d' ∧
           rows d' = rows (dump_read s) ++ appended_rows t) ∧
    (todo ≠ [] →
     ∃ t0 final,
       t = t0 ++ [EvAppend DUMP_FILE_NAME (DataFrame_of_records final);
                  EvPrint (MsgFinished (Z.of_nat (length (appended_rows t))))] ∧
       appended_rows t0 ++ final = omap (fetched api) (fetches t)).
Proof.
  intros Hj Hrun.
  destruct (main_completed B api s job_df s' t Hj Hrun)
    as (todo & Htodo & Hf & Hrows & Hw & Hd & _ & Hlast).
  exists todo. repeat split; try done.
  - by apply (todo_ids_NoDup job_df (dump_read s)).
  - intros Hne. destruct (Hlast Hne) as (t0 & final & Ht).
    exists t0, final. split; [done|].
    rewrite <- Hrows. rewrite Ht at 1. rewrite appended_rows_app.
    f_equal. unfold appended_rows. simpl. by rewrite app_nil_r.
Qed.

Lemma each_record_appended_once_witness :
  let run := main 2 Sample.api_ok (Sample.first_run Sample.job_bootstrap) in
  run.1.1 = Ok tt ∧
  (fetches run.2).*1 = [1; 2; 3] ∧
  appended_rows run.2 = omap (fetched Sample.api_ok) (fetches run.2) ∧
  ∃ d', drive run.1.2 !! DUMP_FILE_NAME = Some d' ∧
        rows d' = appended_rows run.2.
Proof.
  intros run.
  assert (main 2 Sample.api_ok (Sample.first_run Sample.job_bootstrap)
          = (Ok tt, run.1.2, run.2)) as Hrun by (vm_compute; reflexivity).
  destruct (each_record_appended_once 2 Sample.api_ok
              (Sample.first_run Sample.job_bootstrap) Sample.job_bootstrap
              run.1.2 run.2 ltac:(vm_compute; reflexivity) Hrun)
    as (todo & Htodo & _ & Hf & Hrows & Hd & _).
  assert (todo = [1; 2; 3]) as ->
    by (vm_compute in Htodo; by injection Htodo as <-).
  split; [vm_compute; reflexivity|]. by repeat split.
Defined.

(** ** A fetch that raises *)

(** C5. An iteration whose fetch raises logs a warning and hands the loop
    variables on unchanged, so the loop goes on.  In a run that completes,
    a fetch that raised is logged as a warning with its ID and its error;
    its ID is requested that one time only, and every ID of the TodoSet is
    requested, in order; it gives no row: the rows appended, which are the
    rows the dump gains, are the records of the other IDs; and the count
    printed at the end is the number of those rows. *)
Theorem failed_fetch_skipped B api s job_df s' t aid tok e :
  drive s !! JOB_FILE_NAME = Some job_df →
  main B api s = (Ok tt, s', t) →
  (aid, tok) ∈ fetches t →
  fetch_appt api aid tok = Raise e →
  (∀ fid l s0, token l = tok →
     loop_body B api fid aid l s0
     = (Ok l, s0, [EvFetch aid tok; EvWarning aid e])) ∧
  (aid, e) ∈ warnings t ∧
  filter (λ a, a.1 = aid) (fetches t) = [(aid, tok)] ∧
  todo_ids job_df (dump_read s) = Ok (fetches t).*1 ∧
  appended_rows t
  = omap (fetched api) (filter (λ a, a.1 ≠ aid) (fetches t)) ∧
  (∃ d', drive s' !! DUMP_FILE_NAME = Some d' ∧
         rows d' = rows (dump_read s) ++ appended_rows t) ∧
  ∃ t0, t = t0 ++ [EvPrint (MsgFinished (Z.of_nat (length (appended_rows t))))].
Proof.
  intros Hj Hrun Hin Hfail.
  destruct (main_completed B api s job_df s' t Hj Hrun)
    as (todo & Htodo & Hf & Hrows & Hw & Hd & _ & Hlast).
  pose proof (todo_ids_NoDup _ _ _ Htodo) as Hnd. rewrite <- Hf in Hnd.
  pose proof (filter_key_NoDup _ _ _ Hnd Hin) as Hone.
  split; [|split; [|split; [done|split; [by rewrite Hf|split; [|split; [done|]]]]]].
  - intros fid l s0 <-. by apply loop_body_raise.
  - rewrite Hw. apply list_elem_of_omap. exists (aid, tok).
    split; [done|]. unfold failed. cbn [fst snd]. by rewrite Hfail.
  - rewrite Hrows. symmetry. apply omap_filter_none.
    intros [aid' tok'] Hin' Hsame. cbn [fst] in Hsame.
    assert (aid' = aid) as -> by (by destruct (decide (aid' = aid))).
    assert ((aid, tok') ∈ filter (λ a, a.1 = aid) (fetches t)) as Hin2
      by (by apply list_elem_of_filter).
    rewrite Hone in Hin2. apply list_elem_of_singleton in Hin2 as [= ->].
    unfold fetched. cbn [fst snd]. by rewrite Hfail.
  - destruct Hlast as (t0 & final & Ht).
    { intros ->. destruct (fetches t); [|done].
      by apply elem_of_nil in Hin. }
    exists (t0 ++ [EvAppend DUMP_FILE_NAME (DataFrame_of_records final)]).
    rewrite <- app_assoc. exact Ht.
Qed.

(** The partial-failure scenario: TodoSet [10, 11, 12], where 11 answers
    500. *)
Lemma failed_fetch_skipped_witness :
  let run := main BATCH_SIZE_default Sample.api_11_fails (Sample.first_run Sample.job_partial) in
  run.1.1 = Ok tt ∧
  (fetches run.2).*1 = [10; 11; 12] ∧
  (11, HTTPError 500) ∈ warnings run.2 ∧
  drive run.1.2 !! DUMP_FILE_NAME
  = Some (mkDataFrame ["id"%string]
            [[("id"%string, VInt 10)]; [("id"%string, VInt 12)]]) ∧
  ∃ t0, run.2 = t0 ++ [EvPrint (MsgFinished 2)].
Proof.
  intros run.
  assert (main BATCH_SIZE_default Sample.api_11_fails (Sample.first_run Sample.job_partial)
          = (Ok tt, run.1.2, run.2)) as Hrun by (vm_compute; reflexivity).
  destruct (failed_fetch_skipped BATCH_SIZE_default Sample.api_11_fails
              (Sample.first_run Sample.job_partial) Sample.job_partial
              run.1.2 run.2 11 (VInt 0) (HTTPError 500)
              ltac:(vm_compute; reflexivity) Hrun
              ltac:(in_list) ltac:(vm_compute; reflexivity))
    as (_ & Hw & _ & _ & _ & _ & t0 & Ht).
  split; [vm_compute; reflexivity|].
  split; [vm_compute; reflexivity|].
  split; [exact Hw|].
  split; [vm_compute; reflexivity|].
  exists t0. exact Ht.
Defined.

(** ** The order of the appended rows *)

(** C1, as the code has it.  The reference columns are stacked one under
    the other, so the IDs are first seen column after column, each column
    top to bottom.  In a run that completes, the appended rows are, one for
    one and in order, the records returned for a subsequence of the IDs in
    that order. *)
Theorem appended_in_stacked_order B api s job_df s' t :
  drive s !! JOB_FILE_NAME = Some job_df →
  main B api s = (Ok tt, s', t) →
  ∃ ids reqs,
    astype_int (dropna (stacked job_df)) = Ok ids ∧
    reqs.*1 `sublist_of` unique ids ∧
    Forall2 (λ a row, fetch_appt api a.1 a.2 = Ok row) reqs (appended_rows t).
Proof.
  intros Hj Hrun.
  destruct (main_completed B api s job_df s' t Hj Hrun)
    as (todo & Htodo & Hf & Hrows & _).
  destruct (todo_ids_Ok _ _ _ Htodo) as (dn & ids & _ & _ & Hids & ->).
  destruct (omap_sublist_Forall2 (fetched api) (fetches t))
    as (reqs & Hsub & Hall).
  exists ids, reqs. split; [done|]. split.
  - transitivity ((fetches t).*1); [by apply fmap_sublist|].
    rewrite Hf. apply sublist_filter.
  - rewrite Hrows. eapply Forall2_impl; [exact Hall|].
    intros a row. unfold fetched.
    destruct (fetch_appt api a.1 a.2); naive_solver.
Qed.

Lemma appended_in_stacked_order_witness :
  let run := main BATCH_SIZE_default Sample.api_ok (Sample.first_run Sample.job_four) in
  stacked Sample.job_four = [VInt 1; VInt 2; VInt 3; VInt 4] ∧
  ∃ reqs,
    reqs.*1 `sublist_of` [1; 2; 3; 4] ∧
    Forall2 (λ a row, fetch_appt Sample.api_ok a.1 a.2 = Ok row)
      reqs (appended_rows run.2).
Proof.
  intros run.
  assert (main BATCH_SIZE_default Sample.api_ok (Sample.first_run Sample.job_four)
          = (Ok tt, run.1.2, run.2)) as Hrun by (vm_compute; reflexivity).
  destruct (appended_in_stacked_order BATCH_SIZE_default Sample.api_ok
              (Sample.first_run Sample.job_four) Sample.job_four
              run.1.2 run.2 ltac:(vm_compute; reflexivity) Hrun)
    as (ids & reqs & Hids & Hsub & Hall).
  assert (ids = [1; 2; 3; 4]) as ->
    by (vm_compute in Hids; by injection Hids as <-).
  split; [vm_compute; reflexivity|]. by exists reqs.
Defined.

(** C1 as stated fails.  With FirstAppointmentID = [1,2] and
    LastAppointmentID = [3,4] the rows are appended for 1, 2, 3, 4, while
    the row-by-row scan first sees the IDs as 1, 3, 2, 4. *)
Lemma row_by_row_order_fails :
  ¬ (∀ s' t ids,
       main BATCH_SIZE_default Sample.api_ok (Sample.first_run Sample.job_four) = (Ok tt, s', t) →
       row_by_row_ids Sample.job_four = Ok ids →
       (cell "id" <$> appended_rows t) `sublist_of` (VInt <$> ids)).
Proof.
  intros Hclaim.
  pose (run := main BATCH_SIZE_default Sample.api_ok (Sample.first_run Sample.job_four)).
  specialize (Hclaim run.1.2 run.2 [1; 3; 2; 4]
                ltac:(vm_compute; reflexivity) ltac:(vm_compute; reflexivity)).
  vm_compute in Hclaim.
  repeat match goal with
         | H : _ `sublist_of` _ |- _ => inversion H; clear H; subst
         end.
Qed.

(** ** The number and the sizes of the appends *)

Lemma ceil_div_floor n b :
  0 < b →
  ceil_div n b = n / b + (if decide (n mod b = 0) then 0 else 1).
Proof.
  intros Hb. unfold ceil_div.
  pose proof (Z.div_mod n b ltac:(lia)) as Hn.
  pose proof (Z.mod_pos_bound n b Hb) as Hr.
  destruct (decide (n mod b = 0)) as [H0|H0].
  - symmetry. apply (Z.div_unique _ _ _ (b - 1)); lia.
  - symmetry. apply (Z.div_unique _ _ _ (n mod b - 1)); lia.
Qed.

Lemma filter_replicate {A} (P : A → Prop) `{∀ x, Decision (P x)} n x :
  P x → filter P (replicate n x) = replicate n x.
Proof.
  intros HP. induction n as [|n IH]; [done|].
  cbn [replicate]. by rewrite filter_cons_True, IH.
Qed.

(** C2, as the code has it.  With a TodoSet of N > 0 IDs, no fetch failure
    and batch size B > 0, the run completes and calls [append_drive_csv]
    floor(N / B) + 1 times: floor(N / B) times with exactly B rows inside
    the loop, then once more after the loop with the remaining N mod B rows,
    which are none when B divides N.  The appends that carry rows number
    ceil(N / B). *)
Theorem append_sizes_no_failures B api s job_df todo :
  0 < B →
  tokens_granted api →
  drive s !! JOB_FILE_NAME = Some job_df →
  todo_ids job_df (dump_read s) = Ok todo →
  todo ≠ [] →
  (∀ aid tok, aid ∈ todo → ∃ rec, fetch_appt api aid tok = Ok rec) →
  ∃ s' t,
    main B api s = (Ok tt, s', t) ∧
    append_sizes t
    = replicate (Z.to_nat (Z.of_nat (length todo) / B)) (Z.to_nat B)
      ++ [Z.to_nat (Z.of_nat (length todo) mod B)] ∧
    Z.of_nat (length (appends t)) = Z.of_nat (length todo) / B + 1 ∧
    Z.of_nat (length (filter (λ n, n ≠ 0%nat) (append_sizes t)))
    = ceil_div (Z.of_nat (length todo)) B.
Proof.
  intros HB Hg Hj Htodo Hne Hall.
  set (N := Z.of_nat (length todo)).
  destruct (Hg (token_requests (booted s))) as [tok0 Htok].
  assert (drive (authed (booted s)) !! DUMP_FILE_NAME = Some (dump_read s))
    as Hd by apply booted_dump.
  destruct (fetch_loop_total B api DUMP_FILE_NAME todo (mkLoop tok0 [] 0)
              (authed (booted s)) (dump_read s) ltac:(lia) Hg Hd)
    as (l & s2 & tl & Hl).
  destruct (fetch_loop_Ok B api DUMP_FILE_NAME todo _ _ _ _ _ _ Hd Hl)
    as (H1 & _ & _ & H4 & (d2 & Hd2 & _) & _ & _).
  assert (Z.of_nat (length (batch (mkLoop tok0 [] 0)))
          = count (mkLoop tok0 [] 0) mod B) as Hlen
    by (cbn [batch count length]; by rewrite Z.mod_0_l by lia).
  destruct (fetch_loop_sizes B api DUMP_FILE_NAME todo _ _ _ _ _ _ HB Hd Hlen Hl)
    as (S1 & S2 & _).
  assert (count l = N) as HN.
  { rewrite H4. cbn [count]. rewrite omap_length_all.
    - rewrite <- (length_fmap fst), H1. unfold N. lia.
    - intros [aid tok] Hin. unfold fetched. cbn [fst snd].
      destruct (Hall aid tok) as [rec ->]; [|done].
      rewrite <- H1. by apply (list_elem_of_fmap_2' fst _ (aid, tok)). }
  rewrite HN in S1, S2. cbn [count] in S1.
  rewrite Z.div_0_l, Z.sub_0_r in S1 by lia.
  pose proof (fetch_all_run B api DUMP_FILE_NAME todo (booted s)
                tok0 l s2 tl d2 Htok Hl Hd2) as Hfa.
  rewrite (main_unfold B api s job_df Hj), Htodo.
  destruct todo as [|aid todo']; [done|].
  rewrite Hfa. unfold after_boot. cbn [fst snd].
  eexists _, _. split; [reflexivity|].
  destruct (created_quiet s) as (_ & Hc2 & _ & _).
  assert (append_sizes
            (created s ++
             [EvPrint (MsgToFetch (length (aid :: todo'))); EvToken] ++ tl ++
             [EvAppend DUMP_FILE_NAME (DataFrame_of_records (batch l));
              EvPrint (MsgFinished (count l))])
          = replicate (Z.to_nat (N / B)) (Z.to_nat B) ++ [Z.to_nat (N mod B)])
    as Hsizes.
  { rewrite !append_sizes_app, S1. unfold append_sizes at 1. rewrite Hc2.
    unfold append_sizes, appends. cbn. by rewrite <- S2, Nat2Z.id. }
  pose proof (Z.div_pos N B ltac:(lia) HB) as Hq.
  pose proof (Z.mod_pos_bound N B HB) as Hr.
  split; [done|]. split.
  - rewrite <- append_sizes_length, Hsizes, length_app, length_replicate.
    cbn [length]. lia.
  - rewrite Hsizes, filter_app, filter_replicate by lia.
    rewrite length_app, length_replicate, ceil_div_floor by done.
    destruct (decide (N mod B = 0)) as [H0|H0].
    + rewrite filter_cons_False by (rewrite H0; intros Hn; by apply Hn).
      rewrite filter_nil. cbn [length]. lia.
    + rewrite filter_cons_True by lia. rewrite filter_nil. cbn [length]. lia.
Qed.

Lemma api_ok_tokens_granted : tokens_granted Sample.api_ok.
Proof. intros n. by eexists. Qed.

Lemma api_ok_fetches aid tok : ∃ rec, fetch_appt Sample.api_ok aid tok = Ok rec.
Proof. by eexists. Qed.

(** N = 120 and B = 50: appends of 50, 50 and 20 rows. *)
Lemma append_sizes_no_failures_witness :
  ∃ s' t,
    main BATCH_SIZE_default Sample.api_ok (Sample.first_run (Sample.job_range 120))
    = (Ok tt, s', t) ∧
    append_sizes t = [50; 50; 20]%nat ∧
    Z.of_nat (length (appends t)) = 3 ∧
    Z.of_nat (length (filter (λ n, n ≠ 0%nat) (append_sizes t)))
    = ceil_div 120 50.
Proof.
  destruct (append_sizes_no_failures BATCH_SIZE_default Sample.api_ok
              (Sample.first_run (Sample.job_range 120))
              (Sample.job_range 120) (seqZ 1 120)
              ltac:(done) api_ok_tokens_granted
              ltac:(vm_compute; reflexivity) ltac:(vm_compute; reflexivity)
              ltac:(discriminate)
              ltac:(intros aid tok _; apply api_ok_fetches))
    as (s' & t & Hrun & Hsizes & Hn & Hne).
  exists s', t. split; [exact Hrun|]. split; [exact Hsizes|].
  split; [exact Hn|exact Hne].
Defined.

(** C2 as stated fails when B divides N.  With N = 4 and B = 2 no fetch
    fails and [append_drive_csv] is called three times, with 2, 2 and 0
    rows, while ceil(4 / 2) = 2. *)
Lemma append_count_not_ceil :
  ¬ (∀ s' t todo,
       todo_ids Sample.job_four
         (dump_read (Sample.first_run Sample.job_four)) = Ok todo →
       (∀ aid tok, aid ∈ todo → ∃ rec, fetch_appt Sample.api_ok aid tok = Ok rec) →
       main 2 Sample.api_ok (Sample.first_run Sample.job_four) = (Ok tt, s', t) →
       Z.of_nat (length (appends t)) = ceil_div (Z.of_nat (length todo)) 2).
Proof.
  intros Hclaim.
  pose (run := main 2 Sample.api_ok (Sample.first_run Sample.job_four)).
  specialize (Hclaim run.1.2 run.2 [1; 2; 3; 4]
                ltac:(vm_compute; reflexivity)
                ltac:(intros aid tok _; apply api_ok_fetches)
                ltac:(vm_compute; reflexivity)).
  vm_compute in Hclaim. discriminate Hclaim.
Qed.

(** ** When the buffer is flushed *)

Lemma fetched_failed_length api (reqs : list (Z * Value)) :
  (length (omap (fetched api) reqs) + length (omap (failed api) reqs))%nat
  = length reqs.
Proof.
  induction reqs as [|a reqs IH]; csimpl; [done|].
  destruct (fetched_failed api a) as [(rec & _ & -> & ->)|(e & _ & -> & ->)];
    csimpl; lia.
Qed.



(** ** First run *)



(** * Further properties of the code *)

(** ** First occurrences across stacked columns *)

Section UniqueApp.
Context `{EqDecision A}.
Implicit Types (l seen : list A) (x : A).

Lemma unique_from_seen_equiv seen1 seen2 l :
  (∀ x, x ∈ seen1 ↔ x ∈ seen2) →
  unique_from seen1 l = unique_from seen2 l.
Proof.
  revert seen1 seen2. induction l as [|y l IH]; intros seen1 seen2 Heq; [done|].
  simpl. destruct (decide (y ∈ seen1)) as [H1|H1], (decide (y ∈ seen2)) as [H2|H2].
  - by apply IH.
  - by apply Heq in H1.
  - by apply Heq in H2.
  - f_equal. apply IH. intros x. rewrite !elem_of_cons. by rewrite Heq.
Qed.

Lemma unique_from_more_seen s1 s2 l :
  unique_from (s1 ++ s2) l = filter (λ x, x ∉ s1) (unique_from s2 l).
Proof.
  revert s2. induction l as [|y l IH]; intros s2; [done|].
  simpl. destruct (decide (y ∈ s2)) as [H2|H2].
  - rewrite decide_True by (apply elem_of_app; by right). apply IH.
  - destruct (decide (y ∈ s1)) as [H1|H1].
    + rewrite decide_True by (apply elem_of_app; by left).
      rewrite filter_cons_False by (by intros Hn).
      rewrite <- IH. apply unique_from_seen_equiv.
      intros x. rewrite !elem_of_app, elem_of_cons. naive_solver.
    + rewrite decide_False by (rewrite elem_of_app; naive_solver).
      rewrite filter_cons_True by done. f_equal.
      rewrite <- IH. apply unique_from_seen_equiv.
      intros x. rewrite !elem_of_cons, !elem_of_app, elem_of_cons. naive_solver.
Qed.

Lemma unique_from_app seen l1 l2 :
  unique_from seen (l1 ++ l2)
  = unique_from seen l1 ++ unique_from (l1 ++ seen) l2.
Proof.
  revert seen. induction l1 as [|y l1 IH]; intros seen; [done|].
  simpl. destruct (decide (y ∈ seen)) as [Hy|Hy].
  - rewrite IH. f_equal. apply unique_from_seen_equiv.
    intros x. rewrite !elem_of_app, !elem_of_cons, elem_of_app. naive_solver.
  - simpl. f_equal. rewrite IH. f_equal. apply unique_from_seen_equiv.
    intros x. rewrite !elem_of_app, !elem_of_cons, elem_of_app. naive_solver.
Qed.

Lemma unique_app l1 l2 :
  unique (l1 ++ l2) = unique l1 ++ filter (λ x, x ∉ l1) (unique l2).
Proof.
  unfold unique. rewrite unique_from_app. f_equal.
  apply unique_from_more_seen.
Qed.

Lemma unique_NoDup_id l : NoDup l → unique l = l.
Proof.
  unfold unique. assert (∀ seen, (∀ x, x ∈ l → x ∉ seen) → NoDup l →
                                 unique_from seen l = l) as Hgen.
  { induction l as [|y l IH]; intros seen Hs Hnd; [done|].
    apply NoDup_cons in Hnd as [Hy Hnd]. simpl.
    rewrite decide_False by (apply Hs; by left). f_equal.
    apply IH; [|done]. intros x Hx. rewrite elem_of_cons.
    intros [->|Hin]; [done|]. by apply (Hs x); [right|]. }
  apply Hgen. intros x _. by intros ?%elem_of_nil.
Qed.

Lemma unique_idemp l : unique (unique l) = unique l.
Proof. apply unique_NoDup_id, unique_from_NoDup. Qed.

End UniqueApp.

(** ** What the TodoSet contains *)

Lemma astype_int_fmap zs : astype_int (VInt <$> zs) = Ok zs.
Proof. induction zs as [|z zs IH]; [done|]. csimpl. by rewrite IH. Qed.

Lemma astype_int_app_inv l1 l2 zs :
  astype_int (l1 ++ l2) = Ok zs →
  ∃ z1 z2, astype_int l1 = Ok z1 ∧ astype_int l2 = Ok z2 ∧ zs = z1 ++ z2.
Proof.
  intros Hz. pose proof (astype_int_Ok _ _ Hz) as Heq.
  symmetry in Heq. apply fmap_app_inv in Heq as (z1 & z2 & -> & -> & ->).
  exists z1, z2. by rewrite !astype_int_fmap.
Qed.







(** ** Tables that are concatenated *)

Section Concat.
Context `{EqDecision A}.
Implicit Types a b : list A.

Lemma unique_app_unique_l a b : unique (unique a ++ b) = unique (a ++ b).
Proof.
  rewrite !unique_app, unique_idemp. f_equal.
  apply list_filter_iff. intros x. by rewrite unique_elem.
Qed.

Lemma unique_app_unique_r a b : unique (a ++ unique b) = unique (a ++ b).
Proof. by rewrite !unique_app, unique_idemp. Qed.

End Concat.

Lemma DataFrame_of_records_app r1 r2 :
  DataFrame_of_records (r1 ++ r2)
  = df_concat (DataFrame_of_records r1) (DataFrame_of_records r2).
Proof.
  unfold DataFrame_of_records, df_concat. cbn [columns rows]. f_equal.
  rewrite fmap_app, concat_app.
  by rewrite unique_app_unique_l, unique_app_unique_r.
Qed.

Lemma df_concat_assoc d1 d2 d3 :
  df_concat (df_concat d1 d2) d3 = df_concat d1 (df_concat d2 d3).
Proof.
  unfold df_concat. cbn [columns rows]. f_equal; [|by rewrite app_assoc].
  by rewrite unique_app_unique_l, unique_app_unique_r, app_assoc.
Qed.

Lemma df_concat_columns d1 d2 c :
  c ∈ columns (df_concat d1 d2) ↔ c ∈ columns d1 ∨ c ∈ columns d2.
Proof. unfold df_concat. cbn [columns]. by rewrite unique_elem, elem_of_app. Qed.

Lemma grown_nil d : grown d [] d.
Proof. by left. Qed.

Lemma grown_one d fid df : grown d [EvAppend fid (DataFrame_of_records df)]
                             (df_concat d (DataFrame_of_records df)).
Proof. right. split; [done|]. unfold appended_rows. simpl. by rewrite app_nil_r. Qed.

Lemma grown_rows d t d' :
  grown d t d' → rows d' = rows d ++ appended_rows t.
Proof.
  unfold appended_rows. intros [[-> ->]|[_ ->]]; simpl; by rewrite ?app_nil_r.
Qed.

Lemma grown_columns d t d' c :
  grown d t d' → c ∈ columns d → c ∈ columns d'.
Proof.
  intros [[_ ->]|[_ ->]] Hc; [done|]. apply df_concat_columns. by left.
Qed.

Lemma grown_app d t1 d1 t2 d2 :
  grown d t1 d1 → grown d1 t2 d2 → grown d (t1 ++ t2) d2.
Proof.
  unfold grown. rewrite appends_app, appended_rows_app.
  intros [[H1 ->]|[H1 ->]] [[H2 ->]|[H2 ->]].
  - left. by rewrite H1, H2.
  - right. rewrite H1. split; [done|].
    unfold appended_rows at 2. by rewrite H1.
  - right. rewrite H2, app_nil_r. split; [done|].
    unfold appended_rows at 3. by rewrite H2, app_nil_r.
  - right. split; [by destruct (appends t1)|].
    by rewrite df_concat_assoc, <- DataFrame_of_records_app.
Qed.

Lemma grown_quiet d t1 t2 d' :
  appends t1 = [] → grown d t2 d' → grown d (t1 ++ t2) d'.
Proof.
  intros H1 H2. apply (grown_app d t1 d); [by left|done].
Qed.

(** ** Runs that end in any way *)

Lemma bind_inv {A C} (m : M A) (k : A → M C) s r s' t :
  bind m k s = (r, s', t) →
  (∃ a s1 t1 t2, m s = (Ok a, s1, t1) ∧ k a s1 = (r, s', t2) ∧ t = t1 ++ t2) ∨
  (∃ r0, m s = (r0, s', t) ∧ (∀ a, r0 ≠ Ok a) ∧ (∀ c, r ≠ Ok c)).
Proof.
  unfold bind. destruct (m s) as [[[a|x|e] s1] t1].
  - destruct (k a s1) as [[r2 s2] t2] eqn:Hk. intros [= <- <- <-].
    left. by exists a, s1, t1, t2.
  - intros [= <- <- <-]. right. by exists (Exit x).
  - intros [= <- <- <-]. right. by exists (Raise e).
Qed.

Section AnyOutcome.
Variable B : Z.
Variable api : Remote.
Variable fid : string.
Variable P : Dict → Prop.
Hypothesis P_fetched : ∀ aid tok rec, fetch_appt api aid tok = Ok rec → P rec.

(** One iteration, however it ends. *)
Lemma loop_body_any aid l s d r s1 t1 :
  drive s !! fid = Some d →
  Forall P (batch l) →
  loop_body B api fid aid l s = (r, s1, t1) →
  fetches t1 = [(aid, token l)] ∧
  Forall P (appended_rows t1) ∧
  (∀ l1, r = Ok l1 → Forall P (batch l1)) ∧
  (∀ k, k ≠ fid → drive s1 !! k = drive s !! k) ∧
  ∃ d1, drive s1 !! fid = Some d1 ∧ grown d t1 d1.
Proof.
  intros Hd HP.
  destruct (fetch_appt api aid (token l)) as [rec|m|e] eqn:Hf;
    [|by apply fetch_appt_no_exit in Hf|].
  - assert (Forall P (batch l ++ [rec])) as HP'.
    { apply Forall_app. split; [done|]. constructor; [|done].
      by apply (P_fetched aid (token l)). }
    destruct (decide (B = 0)) as [HB|HB].
    { rewrite (loop_body_zero B api fid aid l s rec) by done.
      intros [= <- <- <-]. do 4 (split; [done|]). exists d. split; [done|].
      by left. }
    destruct (decide ((count l + 1) mod B = 0)) as [Hm|Hm].
    + rewrite (loop_body_flush B api fid aid l s rec d) by done.
      assert (∀ rest, appends rest = [] → fetches rest = [] →
        fetches ([EvFetch aid (token l);
                  EvAppend fid (DataFrame_of_records (batch l ++ [rec]));
                  EvToken] ++ rest) = [(aid, token l)] ∧
        Forall P (appended_rows
                    ([EvFetch aid (token l);
                      EvAppend fid (DataFrame_of_records (batch l ++ [rec]));
                      EvToken] ++ rest)) ∧
        grown d ([EvFetch aid (token l);
                  EvAppend fid (DataFrame_of_records (batch l ++ [rec]));
                  EvToken] ++ rest)
          (df_concat d (DataFrame_of_records (batch l ++ [rec])))) as Hev.
      { intros rest Ha Hfe. rewrite fetches_app, appended_rows_app, Hfe.
        unfold appended_rows at 2. rewrite Ha.
        split; [done|]. split.
        - unfold appended_rows. simpl. by rewrite !app_nil_r.
        - apply (grown_app _ [EvFetch aid (token l);
                    EvAppend fid (DataFrame_of_records (batch l ++ [rec]))]
                   (df_concat d (DataFrame_of_records (batch l ++ [rec]))));
            [|by left].
          apply (grown_quiet _ [EvFetch aid (token l)]); [done|].
          apply grown_one. }
      destruct (token_reply _) as [tok'| |]; intros [= <- <- <-].
      * destruct (Hev [EvPrint (MsgUpdated (count l + 1))] eq_refl eq_refl)
          as (H1 & H2 & H3).
        split; [done|]. split; [done|].
        split; [by intros l1 [= <-]; constructor|].
        split; [by intros k Hk; apply flushed_lookup_ne|].
        eexists. split; [apply flushed_lookup|done].
      * destruct (Hev [] eq_refl eq_refl) as (H1 & H2 & H3).
        split; [done|]. split; [done|]. split; [done|].
        split; [by intros k Hk; apply flushed_lookup_ne|].
        eexists. split; [apply flushed_lookup|done].
      * destruct (Hev [] eq_refl eq_refl) as (H1 & H2 & H3).
        split; [done|]. split; [done|]. split; [done|].
        split; [by intros k Hk; apply flushed_lookup_ne|].
        eexists. split; [apply flushed_lookup|done].
    + rewrite (loop_body_keep B api fid aid l s rec) by done.
      intros [= <- <- <-]. split; [done|]. split; [done|].
      split; [by intros l1 [= <-]|]. split; [done|].
      exists d. split; [done|by left].
  - rewrite (loop_body_raise B api fid aid l s e) by done.
    intros [= <- <- <-]. split; [done|]. split; [done|].
    split; [by intros l1 [= <-]|]. split; [done|].
    exists d. split; [done|by left].
Qed.

(** The loop, however it ends. *)
Lemma fetch_loop_any todo l s d r s' t :
  drive s !! fid = Some d →
  Forall P (batch l) →
  fetch_loop B api fid todo l s = (r, s', t) →
  (fetches t).*1 `prefix_of` todo ∧
  Forall P (appended_rows t) ∧
  (∀ l', r = Ok l' → Forall P (batch l')) ∧
  (∀ k, k ≠ fid → drive s' !! k = drive s !! k) ∧
  ∃ d', drive s' !! fid = Some d' ∧ grown d t d'.
Proof.
  revert l s d r s' t.
  induction todo as [|aid todo IH]; intros l s d r s' t Hd HP; simpl.
  - unfold ret. intros [= <- <- <-]. split; [done|]. split; [done|].
    split; [by intros l' [= <-]|]. split; [done|].
    exists d. split; [done|by left].
  - intros [(l1 & s1 & t1 & t2 & Hb & Hl & ->)|(r0 & Hb & Hr0 & Hr)]%bind_inv.
    + destruct (loop_body_any _ _ _ _ _ _ _ Hd HP Hb)
        as (H1 & H2 & H3 & H4 & d1 & Hd1 & Hg1).
      destruct (IH _ _ _ _ _ _ Hd1 (H3 l1 eq_refl) Hl)
        as (I1 & I2 & I3 & I4 & d2 & Hd2 & Hg2).
      rewrite fetches_app, fmap_app, appended_rows_app, H1.
      split; [by apply (prefix_cons aid)|].
      split; [by apply Forall_app|]. split; [done|].
      split; [intros k Hk; by rewrite I4, H4|].
      exists d2. split; [done|]. by apply (grown_app d t1 d1).
    + destruct (loop_body_any _ _ _ _ _ _ _ Hd HP Hb)
        as (H1 & H2 & H3 & H4 & d1 & Hd1 & Hg1).
      rewrite H1. split; [by apply (prefix_cons aid), prefix_nil|].
      split; [done|]. split; [by intros l' ->; destruct (Hr l')|].
      split; [done|]. by exists d1.
Qed.

End AnyOutcome.

Section AnyRun.
Variable B : Z.
Variable api : Remote.
Variable P : Dict → Prop.
Hypothesis P_fetched : ∀ aid tok rec, fetch_appt api aid tok = Ok rec → P rec.

(** [fetch_all] by the outcome of the calls it makes. *)
Lemma fetch_all_unfold fid todo s :
  fetch_all B api fid todo s =
    match token_reply (post_token api (token_requests s)) with
    | Ok tok0 =>
        match fetch_loop B api fid todo (mkLoop tok0 [] 0) (authed s) with
        | (Ok l, s2, tl) =>
            match drive s2 !! fid with
            | Some d2 =>
                (Ok tt,
                 mkState (<[fid := df_concat d2 (DataFrame_of_records (batch l))]>
                            (drive s2)) (token_requests s2),
                 [EvPrint (MsgToFetch (length todo)); EvToken] ++ tl ++
                 [EvAppend fid (DataFrame_of_records (batch l));
                  EvPrint (MsgFinished (count l))])
            | None =>
                (Raise (DriveError fid), s2,
                 [EvPrint (MsgToFetch (length todo)); EvToken] ++ tl ++
                 [EvAppend fid (DataFrame_of_records (batch l))])
            end
        | (Exit m, s2, tl) =>
            (Exit m, s2, [EvPrint (MsgToFetch (length todo)); EvToken] ++ tl)
        | (Raise e, s2, tl) =>
            (Raise e, s2, [EvPrint (MsgToFetch (length todo)); EvToken] ++ tl)
        end
    | Exit m => (Exit m, authed s, [EvPrint (MsgToFetch (length todo)); EvToken])
    | Raise e => (Raise e, authed s, [EvPrint (MsgToFetch (length todo)); EvToken])
    end.
Proof.
  unfold fetch_all, print, emit, st_token. unfold bind. fold (authed s).
  destruct (token_reply _) as [tok0| |]; [|done..].
  destruct (fetch_loop _ _ _ _ _ _) as [[[l| |] s2] tl]; [|done..].
  destruct (drive s2 !! fid) as [d2|] eqn:Hd2.
  - by rewrite (append_drive_csv_run fid s2 d2) by done.
  - by rewrite (append_drive_csv_missing fid s2) by done.
Qed.

(** [fetch_all], however it ends. *)
Lemma fetch_all_any fid todo s d r s' t :
  drive s !! fid = Some d →
  fetch_all B api fid todo s = (r, s', t) →
  (fetches t).*1 `prefix_of` todo ∧
  Forall P (appended_rows t) ∧
  (∀ k, k ≠ fid → drive s' !! k = drive s !! k) ∧
  ∃ d', drive s' !! fid = Some d' ∧ grown d t d'.
Proof.
  intros Hd. rewrite fetch_all_unfold.
  destruct (token_reply _) as [tok0| |];
    [|intros [= <- <- <-]; split; [apply prefix_nil|];
      do 2 (split; [done|]); exists d; split; [done|by left]..].
  destruct (fetch_loop B api fid todo (mkLoop tok0 [] 0) (authed s))
    as [[r0 s2] tl] eqn:Hl.
  destruct (fetch_loop_any B api fid P P_fetched todo (mkLoop tok0 [] 0)
              (authed s) d r0 s2 tl Hd (Forall_nil_2 P) Hl)
    as (H1 & H2 & H3 & H4 & d2 & Hd2 & Hg).
  assert (grown d ([EvPrint (MsgToFetch (length todo)); EvToken] ++ tl) d2)
    as Hg' by (by apply grown_quiet).
  assert (∀ e1 e2 t0, is_fetch e1 = None → is_fetch e2 = None →
            fetches (e1 :: e2 :: t0) = fetches t0) as Hfe
    by (by intros e1 e2 t0; unfold fetches; simpl; intros -> ->).
  assert (∀ e1 e2 t0, is_append e1 = None → is_append e2 = None →
            appended_rows (e1 :: e2 :: t0) = appended_rows t0) as Hap
    by (by intros e1 e2 t0; unfold appended_rows, appends; simpl; intros -> ->).
  destruct r0 as [l| |]; [|intros [= <- <- <-]..].
  all: swap 1 3.
  1,2: rewrite Hfe, Hap by done; split; [done|]; do 2 (split; [done|]);
       by exists d2.
  rewrite Hd2. intros [= <- <- <-].
  rewrite Hfe, Hap by done. rewrite fetches_app, appended_rows_app.
  assert (fetches [EvAppend fid (DataFrame_of_records (batch l));
                   EvPrint (MsgFinished (count l))] = []) as -> by done.
  assert (appended_rows [EvAppend fid (DataFrame_of_records (batch l));
                         EvPrint (MsgFinished (count l))] = batch l) as ->
    by (unfold appended_rows; simpl; by rewrite app_nil_r).
  rewrite app_nil_r. split; [done|]. split.
  - apply Forall_app. split; [done|]. by apply H3.
  - split.
    + intros k Hk. cbn [drive]. rewrite lookup_insert_ne by done. by apply H4.
    + eexists. split; [cbn [drive]; apply lookup_insert_eq|].
      apply (grown_app d ([EvPrint (MsgToFetch (length todo)); EvToken] ++ tl) d2);
        [done|].
      apply (grown_app d2 [EvAppend fid (DataFrame_of_records (batch l))]
               (df_concat d2 (DataFrame_of_records (batch l))));
        [apply grown_one|by left].
Qed.

(** [main] with the job file, however it ends. *)
Lemma main_any s job_df r s' t :
  drive s !! JOB_FILE_NAME = Some job_df →
  main B api s = (r, s', t) →
  Forall P (appended_rows t) ∧
  (∀ k, k ≠ DUMP_FILE_NAME → drive s' !! k = drive s !! k) ∧
  ∃ d', drive s' !! DUMP_FILE_NAME = Some d' ∧ grown (dump_read s) t d'.
Proof.
  intros Hj. rewrite (main_unfold B api s job_df Hj).
  destruct (created_quiet s) as (_ & Hc & _ & _).
  assert (∀ k, k ≠ DUMP_FILE_NAME → drive (booted s) !! k = drive s !! k)
    as Hother.
  { intros k Hk. unfold booted.
    destruct (drive s !! DUMP_FILE_NAME); [done|]. cbn [drive].
    by rewrite lookup_insert_ne. }
  assert (∀ t0, appends t0 = [] →
            Forall P (appended_rows (created s ++ t0)) ∧
            (∀ k, k ≠ DUMP_FILE_NAME → drive (booted s) !! k = drive s !! k) ∧
            ∃ d', drive (booted s) !! DUMP_FILE_NAME = Some d' ∧
                  grown (dump_read s) (created s ++ t0) d') as Hquiet.
  { intros t0 Ht0. split; [|split; [done|]].
    - unfold appended_rows. by rewrite appends_app, Hc, Ht0.
    - exists (dump_read s). split; [apply booted_dump|].
      left. by rewrite appends_app, Hc, Ht0. }
  destruct (todo_ids job_df (dump_read s)) as [[|aid todo]| |].
  - intros [= <- <- <-]. by apply Hquiet.
  - unfold after_boot.
    destruct (fetch_all B api DUMP_FILE_NAME (aid :: todo) (booted s))
      as [[r2 s2] t2] eqn:Hfa. cbn [fst snd]. intros [= <- <- <-].
    destruct (fetch_all_any _ _ _ _ _ _ _ (booted_dump s) Hfa)
      as (_ & H2 & H3 & d' & Hd' & Hg).
    split; [|split].
    + rewrite appended_rows_app. apply Forall_app. split; [|done].
      unfold appended_rows. by rewrite Hc.
    + intros k Hk. by rewrite H3, Hother.
    + exists d'. split; [done|]. by apply grown_quiet.
  - intros [= <- <- <-]. rewrite <- (app_nil_r (created s)). by apply Hquiet.
  - intros [= <- <- <-]. rewrite <- (app_nil_r (created s)). by apply Hquiet.
Qed.

End AnyRun.

(** ** What a run does to the Drive folder *)



(** ** The id of a record *)

Lemma dict_setdefault_get k v d :
  dict_get k (dict_setdefault k v d) = Some (default v (dict_get k d)).
Proof.
  unfold dict_setdefault. destruct (dict_get k d) as [w|] eqn:Hk; [done|].
  simpl. induction d as [|[k' w] d IH]; simpl in *.
  - by rewrite decide_True.
  - destruct (decide (k' = k)); [done|]. by apply IH.
Qed.

Lemma fetch_appt_has_id api aid tok rec :
  fetch_appt api aid tok = Ok rec → has_id rec.
Proof.
  unfold fetch_appt, has_id.
  destruct (get_appointment api aid tok) as [r|]; [|done].
  destruct (status_code r =? 404); [by intros [= <-]|].
  destruct (raise_for_status r); [|done..].
  destruct (body r) as [|data|]; [done| |done].
  intros [= <-]. by rewrite dict_setdefault_get.
Qed.

(** X3. Every record [fetch_appt] returns has an id key.  So, however
    [main] ends, every row it appends has an id key; a dump that was
    missing, or that had an id column, has an id column afterwards; and if
    all its rows had an id key before, they all have one afterwards. *)
Theorem dump_rows_have_id B api s job_df r s' t :
  drive s !! JOB_FILE_NAME = Some job_df →
  main B api s = (r, s', t) →
  (∀ aid tok rec, fetch_appt api aid tok = Ok rec → has_id rec) ∧
  Forall has_id (appended_rows t) ∧
  ∃ d', drive s' !! DUMP_FILE_NAME = Some d' ∧
        (drive s !! DUMP_FILE_NAME = None ∨
         "id"%string ∈ columns (dump_read s) → "id"%string ∈ columns d') ∧
        (Forall has_id (rows (dump_read s)) → Forall has_id (rows d')).
Proof.
  intros Hj Hrun. split; [apply fetch_appt_has_id|].
  destruct (main_any B api has_id (fetch_appt_has_id api) s job_df r s' t Hj Hrun)
    as (Hall & _ & d' & Hd' & Hg).
  split; [done|]. exists d'. split; [done|]. split.
  - intros Hid. apply (grown_columns _ _ _ _ Hg).
    destruct Hid as [Hnone|Hid]; [|done].
    unfold dump_read. rewrite Hnone. by left.
  - intros Hrows. rewrite (grown_rows _ _ _ Hg). by apply Forall_app.
Qed.

Lemma dump_rows_have_id_witness :
  let run := main BATCH_SIZE_default Sample.api_mixed
               (Sample.first_run (Sample.job_range 9)) in
  Forall has_id (appended_rows run.2) ∧
  length (appended_rows run.2) = 4%nat ∧
  ∃ d', drive run.1.2 !! DUMP_FILE_NAME = Some d' ∧
        "id"%string ∈ columns d' ∧ Forall has_id (rows d').
Proof.
  intros run.
  destruct (dump_rows_have_id BATCH_SIZE_default Sample.api_mixed
              (Sample.first_run (Sample.job_range 9)) (Sample.job_range 9)
              run.1.1 run.1.2 run.2 ltac:(vm_compute; reflexivity)
              ltac:(subst run; by destruct (main _ _ _) as [[??]?]))
    as (_ & Hall & d' & Hd' & Hcol & Hrows).
  split; [exact Hall|]. split; [vm_compute; reflexivity|].
  exists d'. split; [exact Hd'|]. split.
  - apply Hcol. left. vm_compute. reflexivity.
  - apply Hrows. vm_compute. constructor.
Defined.

(** ** The dump after a completed run *)



(** X5. In a run that completes, every ID of the TodoSet ends either as a
    warning or as an appended row: the rows appended and the warnings logged
    are together as many as the IDs, and an ID without a warning has the
    record fetched for it among the appended rows. *)
Theorem every_id_row_or_warning B api s job_df s' t :
  drive s !! JOB_FILE_NAME = Some job_df →
  main B api s = (Ok tt, s', t) →
  ∃ todo,
    todo_ids job_df (dump_read s) = Ok todo ∧
    (length (appended_rows t) + length (warnings t))%nat = length todo ∧
    ∀ i, i ∈ todo →
      (∃ e, (i, e) ∈ warnings t) ∨
      (∃ tok rec, fetch_appt api i tok = Ok rec ∧ rec ∈ appended_rows t).
Proof.
  intros Hj Hrun.
  destruct (main_completed B api s job_df s' t Hj Hrun)
    as (todo & Htodo & Hf & Hrows & Hw & _).
  exists todo. split; [done|]. rewrite Hrows, Hw. split.
  - by rewrite fetched_failed_length, <- Hf, length_fmap.
  - intros i Hi. rewrite <- Hf in Hi.
    apply list_elem_of_fmap in Hi as ([i' tok] & -> & Hin). cbn [fst].
    destruct (fetched_failed api (i', tok))
      as [(rec & Hok & Hsome & _)|(e & _ & _ & Hfail)].
    + right. exists tok, rec. split; [done|].
      apply list_elem_of_omap. by exists (i', tok).
    + left. exists e. apply list_elem_of_omap. by exists (i', tok).
Qed.

Lemma every_id_row_or_warning_witness :
  let run := main BATCH_SIZE_default Sample.api_11_fails
               (Sample.first_run Sample.job_partial) in
  (length (appended_rows run.2) + length (warnings run.2))%nat = 3%nat.
Proof.
  intros run.
  destruct (every_id_row_or_warning BATCH_SIZE_default Sample.api_11_fails
              (Sample.first_run Sample.job_partial) Sample.job_partial
              run.1.2 run.2 ltac:(vm_compute; reflexivity)
              ltac:(vm_compute; reflexivity))
    as (todo & Htodo & Hlen & _).
  assert (todo = [10; 11; 12]) as ->
    by (vm_compute in Htodo; by injection Htodo as <-).
  exact Hlen.
Defined.

(** ** Batches and tokens when fetches fail *)

(** X6. In a run that completes with batch size B > 0 and something to
    fetch, let S be the number of rows appended.  Every append inside the
    loop has exactly B rows and the last append has S mod B, failures or
    not; and a token is requested once per append: once before the loop and
    once after each append inside it, S / B + 1 times in all. *)
Theorem batches_and_tokens B api s job_df s' t :
  0 < B →
  drive s !! JOB_FILE_NAME = Some job_df →
  main B api s = (Ok tt, s', t) →
  fetches t ≠ [] →
  append_sizes t
  = replicate (Z.to_nat (Z.of_nat (length (appended_rows t)) / B)) (Z.to_nat B)
    ++ [Z.to_nat (Z.of_nat (length (appended_rows t)) mod B)] ∧
  token_calls t = length (appends t) ∧
  Z.of_nat (token_calls t) = Z.of_nat (length (appended_rows t)) / B + 1.
Proof.
  intros HB Hj Hrun Hne. rewrite (main_unfold B api s job_df Hj) in Hrun.
  destruct (created_quiet s) as (Hc1 & Hc2 & _ & Hc4).
  destruct (todo_ids job_df (dump_read s)) as [[|aid todo]| |]; try done.
  { injection Hrun as <- <-. rewrite fetches_app, Hc1 in Hne. done. }
  unfold after_boot in Hrun.
  destruct (fetch_all B api DUMP_FILE_NAME (aid :: todo) (booted s))
    as [[r2 s2] t2] eqn:Hfa. cbn [fst snd] in Hrun.
  injection Hrun as -> -> <-.
  apply fetch_all_Ok_inv in Hfa
    as (tok0 & l & s3 & tl & d2 & Htok & Hl & Hd2 & -> & ->).
  assert (drive (authed (booted s)) !! DUMP_FILE_NAME = Some (dump_read s))
    as Hd by apply booted_dump.
  destruct (fetch_loop_Ok B api DUMP_FILE_NAME _ _ _ _ _ _ _ Hd Hl)
    as (_ & H2 & _ & H4 & _ & _ & H7).
  assert (Z.of_nat (length (batch (mkLoop tok0 [] 0)))
          = count (mkLoop tok0 [] 0) mod B) as Hlen
    by (cbn [batch count length]; by rewrite Z.mod_0_l by lia).
  destruct (fetch_loop_sizes B api DUMP_FILE_NAME _ _ _ _ _ _ _ HB Hd Hlen Hl)
    as (S1 & S2 & _).
  cbn [batch count app] in H2, H4, S1. rewrite Z.add_0_l in H4.
  rewrite Z.div_0_l, Z.sub_0_r in S1 by lia.
  set (t := created s ++ _).
  assert (appended_rows t = appended_rows tl ++ batch l) as Hrows.
  { subst t. rewrite !appended_rows_app. unfold appended_rows at 1 2 4.
    rewrite Hc2. simpl. by rewrite app_nil_r. }
  assert (append_sizes t = append_sizes tl ++ [length (batch l)]) as Hsizes.
  { subst t. rewrite !append_sizes_app. unfold append_sizes at 1 2 4.
    by rewrite Hc2. }
  assert (token_calls t = S (token_calls tl)) as Htc.
  { subst t. rewrite !token_calls_app, Hc4. unfold token_calls at 1 3.
    simpl. lia. }
  assert (Z.of_nat (length (appended_rows t)) = count l) as HS
    by (by rewrite Hrows, H2, H4).
  rewrite HS, Hsizes, S1, <- S2, Nat2Z.id, Htc, H7.
  split; [done|].
  assert (length (appends t) = S (length (appends tl))) as ->.
  { rewrite <- !append_sizes_length, Hsizes, length_app. simpl. lia. }
  split; [done|].
  rewrite <- append_sizes_length, S1, length_replicate.
  pose proof (Z.div_pos (count l) B). lia.
Qed.

(** TodoSet [1, 2, 3] with batch size 2, where 2 answers 500: one append of
    2 rows after the third attempt, a last append of none, two token
    requests. *)
Lemma batches_and_tokens_witness :
  let run := main 2 Sample.api_2_fails (Sample.first_run Sample.job_bootstrap) in
  append_sizes run.2 = [2; 0]%nat ∧ token_calls run.2 = 2%nat.
Proof.
  intros run.
  destruct (batches_and_tokens 2 Sample.api_2_fails
              (Sample.first_run Sample.job_bootstrap) Sample.job_bootstrap
              run.1.2 run.2 ltac:(lia) ltac:(vm_compute; reflexivity)
              ltac:(vm_compute; reflexivity) ltac:(vm_compute; discriminate))
    as (Hsizes & Htok & _).
  split; [exact Hsizes|]. rewrite Htok. vm_compute. reflexivity.
Defined.

(** ** Runs that stop early *)

(** X7. When there is something to fetch and the first token request
    fails, [main] ends with that error right after the request: nothing is
    fetched, nothing is appended, and the Drive folder is as the bootstrap
    left it. *)
Theorem first_token_failure_aborts B api s job_df todo e :
  drive s !! JOB_FILE_NAME = Some job_df →
  todo_ids job_df (dump_read s) = Ok todo →
  todo ≠ [] →
  token_reply (post_token api (token_requests s)) = Raise e →
  main B api s
  = (Raise e, authed (booted s),
     created s ++ [EvPrint (MsgToFetch (length todo)); EvToken]) ∧
  fetches (main B api s).2 = [] ∧
  appends (main B api s).2 = [] ∧
  drive (main B api s).1.2 = drive (booted s).
Proof.
  intros Hj Htodo Hne Htok.
  rewrite (main_unfold B api s job_df Hj), Htodo.
  destruct todo as [|aid todo]; [done|].
  rewrite (fetch_all_unfold B api), booted_token_requests, Htok.
  unfold after_boot. cbn [fst snd].
  destruct (created_quiet s) as (Hc1 & Hc2 & _).
  by rewrite fetches_app, appends_app, Hc1, Hc2.
Qed.

Lemma first_token_failure_aborts_witness :
  main BATCH_SIZE_default More.api_no_token
    (Sample.first_run Sample.job_bootstrap)
  = (Raise (HTTPError 401),
     authed (booted (Sample.first_run Sample.job_bootstrap)),
     [EvCreate DUMP_FILE_NAME header_only; EvPrint MsgCreated;
      EvPrint (MsgToFetch 3); EvToken]).
Proof.
  exact (proj1 (first_token_failure_aborts BATCH_SIZE_default More.api_no_token
                  (Sample.first_run Sample.job_bootstrap) Sample.job_bootstrap
                  [1; 2; 3] (HTTPError 401)
                  ltac:(vm_compute; reflexivity) ltac:(vm_compute; reflexivity)
                  ltac:(discriminate) ltac:(vm_compute; reflexivity))).
Defined.




(** ** The run after *)

Lemma filter_ext_in {A} (P Q : A → Prop)
    `{∀ x, Decision (P x)} `{∀ x, Decision (Q x)} (l : list A) :
  (∀ x, x ∈ l → P x ↔ Q x) → filter P l = filter Q l.
Proof.
  induction l as [|x l IH]; intros Hl; [done|].
  rewrite !filter_cons, IH by (intros y Hy; apply Hl; by right).
  destruct (decide (P x)) as [HP|HP], (decide (Q x)) as [HQ|HQ]; try done.
  - by apply (Hl x) in HP; [|left].
  - by apply (Hl x) in HQ; [|left].
Qed.

Lemma df_empty_with_column d c :
  c ∈ columns d →
  df_empty d = match rows d with [] => true | _ :: _ => false end.
Proof.
  unfold df_empty. by destruct (columns d); [intros ?%elem_of_nil|].
Qed.

(** The ids of a dump that has gained rows with integer ids. *)
Lemma done_ids_grown d d' dn new zs :
  "id"%string ∈ columns d → "id"%string ∈ columns d' →
  done_ids d = Ok dn →
  rows d' = rows d ++ new →
  cell "id" <$> new = VInt <$> zs →
  ∃ dn', done_ids d' = Ok dn' ∧ ∀ i, i ∈ dn' ↔ i ∈ dn ∨ i ∈ zs.
Proof.
  intros Hc Hc' Hdn Hrows Hnew. unfold done_ids in *.
  rewrite (df_empty_with_column d "id" Hc) in Hdn.
  rewrite (df_empty_with_column d' "id" Hc'), decide_True by done.
  rewrite decide_True in Hdn by done.
  unfold column in *. rewrite Hrows, fmap_app, Hnew.
  destruct (rows d) as [|r rs] eqn:Hr.
  - injection Hdn as <-. cbn [app fmap list_fmap].
    destruct new as [|n new'].
    + destruct zs; [|done]. exists ∅. split; [done|]. set_solver.
    + cbn [app]. rewrite <- Hnew. rewrite Hnew, astype_int_fmap.
      exists (list_to_set zs). split; [done|]. set_solver.
  - destruct (astype_int (cell "id" <$> r :: rs)) as [zs0| |] eqn:Hz; try done.
    injection Hdn as <-. rewrite (astype_int_Ok _ _ Hz), <- fmap_app.
    rewrite astype_int_fmap. cbn [app].
    exists (list_to_set (zs0 ++ zs)). split; [done|]. set_solver.
Qed.

(** The IDs whose fetch returned, in fetch order. *)
Lemma fetched_ids api (reqs : list (Z * Value)) :
  (∀ aid tok rec, (aid, tok) ∈ reqs → fetch_appt api aid tok = Ok rec →
                  cell "id" rec = VInt aid) →
  ∃ zs, cell "id" <$> omap (fetched api) reqs = VInt <$> zs ∧
        ∀ i, i ∈ zs ↔ ∃ tok rec, (i, tok) ∈ reqs ∧ fetch_appt api i tok = Ok rec.
Proof.
  induction reqs as [|[aid tok] reqs IH]; intros Hid.
  - exists []. split; [done|]. intros i. split; [by intros ?%elem_of_nil|].
    by intros (tok & rec & ?%elem_of_nil & _).
  - destruct IH as (zs & Hzs & Hmem).
    { intros a k rec Hin. apply Hid. by right. }
    csimpl. unfold fetched at 1. cbn [fst snd].
    destruct (fetch_appt api aid tok) as [rec| |] eqn:Hf.
    + exists (aid :: zs). csimpl. rewrite Hzs, (Hid aid tok rec) by (done || left).
      split; [done|]. intros i. rewrite elem_of_cons, Hmem.
      setoid_rewrite elem_of_cons. split.
      * intros [->|(k & rec' & Hin & Hok)]; [by exists tok, rec; split; [left|]|].
        exists k, rec'. split; [by right|done].
      * intros (k & rec' & [[= -> ->]|Hin] & Hok); [by left|].
        right. by exists k, rec'.
    + exists zs. split; [done|]. intros i. rewrite Hmem.
      setoid_rewrite elem_of_cons. split; [naive_solver|].
      intros (k & rec' & [[= -> ->]|Hin] & Hok); [congruence|by exists k, rec'].
    + exists zs. split; [done|]. intros i. rewrite Hmem.
      setoid_rewrite elem_of_cons. split; [naive_solver|].
      intros (k & rec' & [[= -> ->]|Hin] & Hok); [congruence|by exists k, rec'].
Qed.

(** X9. Take a run that completes, on a dump that was missing or had an id
    column, in which every record fetched carries the ID it was requested
    for.  The TodoSet of the next run on the resulting folder is then the
    IDs this run warned about, in the same order: what was fetched is not
    fetched again and what failed is tried again.  If there was no warning,
    the next run, with any batch size and any API behaviour, only prints
    up-to-date and changes nothing. *)
Theorem next_run_retries_failures B api s job_df s' t :
  drive s !! JOB_FILE_NAME = Some job_df →
  (drive s !! DUMP_FILE_NAME = None ∨ "id"%string ∈ columns (dump_read s)) →
  main B api s = (Ok tt, s', t) →
  (∀ aid tok rec, (aid, tok) ∈ fetches t → fetch_appt api aid tok = Ok rec →
                  cell "id" rec = VInt aid) →
  ∃ todo,
    todo_ids job_df (dump_read s) = Ok todo ∧
    todo_ids job_df (dump_read s')
    = Ok (filter (λ i, i ∈ (warnings t).*1) todo) ∧
    (warnings t = [] →
     ∀ B' api', main B' api' s' = (Ok tt, s', [EvPrint MsgUpToDate])).
Proof.
  intros Hj Hid Hrun Hhonest.
  destruct (main_completed B api s job_df s' t Hj Hrun)
    as (todo & Htodo & Hf & Hrows & Hw & (d' & Hd' & Hr') & Hj' & _).
  destruct (main_any B api (λ _, True) ltac:(done) s job_df _ s' t Hj Hrun)
    as (_ & _ & d'' & Hd'' & Hg).
  rewrite Hd' in Hd''. injection Hd'' as <-.
  assert ("id"%string ∈ columns (dump_read s)) as Hc.
  { destruct Hid as [Hnone|?]; [|done]. unfold dump_read. rewrite Hnone. by left. }
  pose proof (grown_columns _ _ _ _ Hg Hc) as Hc'.
  assert (dump_read s' = d') as Hread by (unfold dump_read; by rewrite Hd').
  destruct (todo_ids_Ok _ _ _ Htodo) as (dn & ids & Hdn & Hcols & Hids & Heq).
  destruct (fetched_ids api (fetches t) Hhonest) as (zs & Hzs & Hmem).
  rewrite Hrows in Hr'.
  destruct (done_ids_grown _ d' dn _ zs Hc Hc' Hdn Hr' Hzs) as (dn' & Hdn' & Hin).
  pose proof (todo_ids_NoDup _ _ _ Htodo) as Hnd. rewrite <- Hf in Hnd.
  assert (todo_ids job_df (dump_read s')
          = Ok (filter (λ i, i ∈ (warnings t).*1) todo)) as Hnext.
  { unfold todo_ids. rewrite Hread, Hdn'.
    destruct (id_cols job_df); [done|]. rewrite Hids. f_equal.
    rewrite Heq, list_filter_filter. apply filter_ext_in.
    intros i Hi. rewrite Hin, Hw. split.
    - intros Hni. assert (i ∉ dn) as Hdn0 by (intros ?; apply Hni; by left).
      split; [|done].
      assert (i ∈ (fetches t).*1) as Hreq
        by (rewrite Hf, Heq; by apply list_elem_of_filter).
      apply list_elem_of_fmap in Hreq as ([i' tok] & -> & Hreq). cbn [fst] in *.
      destruct (fetched_failed api (i', tok))
        as [(rec & Hok & _)|(e & _ & _ & Hfail)].
      + destruct Hni. right. apply Hmem. by exists tok, rec.
      + apply (list_elem_of_fmap_2' fst _ (i', e)); [|done].
        apply list_elem_of_omap. by exists (i', tok).
    - intros [Hwarn Hdn0] [?|Hz]; [done|].
      apply Hmem in Hz as (tok & rec & Hreq & Hok).
      apply list_elem_of_fmap in Hwarn as ([i' e] & -> & Hwarn). cbn [fst] in *.
      apply list_elem_of_omap in Hwarn as ([i2 tok'] & Hreq' & Hfail).
      unfold failed in Hfail. cbn [fst snd] in Hfail.
      destruct (fetch_appt api i2 tok') as [| |e'] eqn:Hf'; try done.
      injection Hfail as -> ->.
      assert ((i', tok') ∈ filter (λ a, a.1 = i') (fetches t)) as Hin2
        by (by apply list_elem_of_filter).
      rewrite (filter_key_NoDup _ _ _ Hnd Hreq) in Hin2.
      apply list_elem_of_singleton in Hin2 as [= ->]. congruence. }
  exists todo. split; [done|]. split; [done|].
  intros Hnone B' api'. rewrite Hnone in Hnext.
  rewrite (filter_none _ todo) in Hnext by (by intros i _ ?%elem_of_nil).
  rewrite (main_unfold B' api' s' job_df Hj'), Hnext.
  unfold booted, created. by rewrite Hd'.
Qed.

(** The partial-failure scenario again: the next TodoSet is [11]. *)
Lemma next_run_retries_failures_witness :
  let run := main BATCH_SIZE_default Sample.api_11_fails
               (Sample.first_run Sample.job_partial) in
  todo_ids Sample.job_partial (dump_read run.1.2) = Ok [11].
Proof.
  intros run.
  destruct (next_run_retries_failures BATCH_SIZE_default Sample.api_11_fails
              (Sample.first_run Sample.job_partial) Sample.job_partial
              run.1.2 run.2 ltac:(vm_compute; reflexivity)
              ltac:(left; vm_compute; reflexivity)
              ltac:(vm_compute; reflexivity))
    as (todo & Htodo & Hnext & _).
  { intros aid tok rec _. unfold fetch_appt. cbn.
    destruct (aid =? 11); [done|]. by intros [= <-]. }
  rewrite Hnext.
  assert (todo = [10; 11; 12]) as ->
    by (vm_compute in Htodo; by injection Htodo as <-).
  vm_compute. reflexivity.
Defined.

(** ** Appending to a Drive file *)




(** ** The token a fetch is made with *)

Lemma fresh_app api n c t1 n1 c1 t2 n2 c2 :
  fresh api n c t1 n1 c1 → fresh api n1 c1 t2 n2 c2 →
  fresh api n c (t1 ++ t2) n2 c2.
Proof.
  revert n c. induction t1 as [|e t1 IH]; intros n c; simpl.
  - by intros [-> ->].
  - destruct e; try (by apply IH). intros [-> H1] H2. split; [done|by apply IH].
Qed.

Section Fresh.
Variable B : Z.
Variable api : Remote.
Variable fid : string.

Lemma loop_body_fresh aid l s d r s1 t1 :
  drive s !! fid = Some d →
  loop_body B api fid aid l s = (r, s1, t1) →
  ∃ c1, fresh api (token_requests s) (Some (token l)) t1 (token_requests s1) c1 ∧
        ∀ l1, r = Ok l1 → c1 = Some (token l1).
Proof.
  intros Hd.
  destruct (fetch_appt api aid (token l)) as [rec|m|e] eqn:Hf;
    [|by apply fetch_appt_no_exit in Hf|].
  - destruct (decide (B = 0)) as [HB|HB].
    { rewrite (loop_body_zero B api fid aid l s rec) by done.
      intros [= <- <- <-]. by exists (Some (token l)). }
    destruct (decide ((count l + 1) mod B = 0)) as [Hm|Hm].
    + rewrite (loop_body_flush B api fid aid l s rec d) by done.
      intros Heq.
      exists (current_token (post_token api (token_requests s))).
      unfold current_token.
      destruct (token_reply _) as [tok'| |] eqn:Ht;
        injection Heq as <- <- <-;
        simpl; unfold current_token; rewrite Ht;
        (split; [done|]); by intros l1 [= <-].
    + rewrite (loop_body_keep B api fid aid l s rec) by done.
      intros [= <- <- <-]. exists (Some (token l)).
      split; [done|]. by intros l1 [= <-].
  - rewrite (loop_body_raise B api fid aid l s e) by done.
    intros [= <- <- <-]. exists (Some (token l)).
    split; [done|]. by intros l1 [= <-].
Qed.

Lemma fetch_loop_fresh todo l s d r s' t :
  drive s !! fid = Some d →
  fetch_loop B api fid todo l s = (r, s', t) →
  ∃ c', fresh api (token_requests s) (Some (token l)) t (token_requests s') c'.
Proof.
  revert l s d r s' t.
  induction todo as [|aid todo IH]; intros l s d r s' t Hd; simpl.
  - unfold ret. intros [= <- <- <-]. by exists (Some (token l)).
  - intros [(l1 & s1 & t1 & t2 & Hb & Hl & ->)|(r0 & Hb & _)]%bind_inv.
    + destruct (loop_body_fresh _ _ _ _ _ _ _ Hd Hb) as (c1 & H1 & Hc1).
      rewrite (Hc1 l1 eq_refl) in H1.
      destruct (loop_body_any B api fid (λ _, True) ltac:(done)
                  _ _ _ _ _ _ _ Hd ltac:(by apply Forall_true) Hb)
        as (_ & _ & _ & _ & d1 & Hd1 & _).
      destruct (IH _ _ _ _ _ _ Hd1 Hl) as (c' & H2).
      exists c'. by apply (fresh_app _ _ _ _ _ _ _ _ _ H1).
    + destruct (loop_body_fresh _ _ _ _ _ _ _ Hd Hb) as (c1 & H1 & _).
      by exists c1.
Qed.

End Fresh.

(** X11. However [main] ends, every fetch it made was made with the token
    returned by the latest token request before it, and none was made
    before a token had been returned; every token request of the run is
    counted. *)
Theorem fetches_use_latest_token B api s r s' t :
  main B api s = (r, s', t) →
  ∃ c', fresh api (token_requests s) None t (token_requests s') c'.
Proof.
  destruct (drive s !! JOB_FILE_NAME) as [job_df|] eqn:Hj;
    [|rewrite (main_no_job B api s Hj); intros [= <- <- <-]; by exists None].
  rewrite (main_unfold B api s job_df Hj).
  assert (fresh api (token_requests s) None (created s) (token_requests s) None)
    as Hc by (unfold created; by destruct (drive s !! DUMP_FILE_NAME)).
  pose proof (booted_token_requests s) as Hn.
  destruct (todo_ids job_df (dump_read s)) as [[|aid todo]| |].
  - intros [= <- <- <-]. exists None. rewrite Hn.
    by apply (fresh_app _ _ _ _ _ _ _ _ _ Hc).
  - unfold after_boot. rewrite (fetch_all_unfold B api).
    rewrite Hn.
    destruct (token_reply (post_token api (token_requests s)))
      as [tok0| |] eqn:Htok.
    + destruct (fetch_loop B api DUMP_FILE_NAME (aid :: todo) (mkLoop tok0 [] 0)
                  (authed (booted s))) as [[r0 s2] tl] eqn:Hl.
      destruct (fetch_loop_fresh B api DUMP_FILE_NAME _ _ _ _ _ _ _
                  (booted_dump s : drive (authed (booted s)) !! _ = _) Hl)
        as (c' & Hfresh).
      cbn [token_requests authed] in Hfresh. rewrite Hn in Hfresh.
      assert (fresh api (token_requests s) None
                ([EvPrint (MsgToFetch (length (aid :: todo))); EvToken] ++ tl)
                (token_requests s2) c') as Hpre.
      { simpl. unfold current_token. by rewrite Htok. }
      destruct r0 as [l| |].
      * destruct (drive s2 !! DUMP_FILE_NAME);
          cbn [fst snd]; intros [= <- <- <-]; exists c';
          apply (fresh_app _ _ _ _ _ _ _ _ _ Hc);
          apply (fresh_app _ _ _ _ _ _ _ _ _ Hpre); done.
      * cbn [fst snd]. intros [= <- <- <-]. exists c'.
        by apply (fresh_app _ _ _ _ _ _ _ _ _ Hc).
      * cbn [fst snd]. intros [= <- <- <-]. exists c'.
        by apply (fresh_app _ _ _ _ _ _ _ _ _ Hc).
    + cbn [fst snd]. intros [= <- <- <-]. exists None.
      apply (fresh_app _ _ _ _ _ _ _ _ _ Hc). simpl.
      unfold current_token. by rewrite Htok, Hn.
    + cbn [fst snd]. intros [= <- <- <-]. exists None.
      apply (fresh_app _ _ _ _ _ _ _ _ _ Hc). simpl.
      unfold current_token. by rewrite Htok, Hn.
  - intros [= <- <- <-]. exists None. rewrite Hn, <- (app_nil_r (created s)).
    by apply (fresh_app _ _ _ _ _ _ _ _ _ Hc).
  - intros [= <- <- <-]. exists None. rewrite Hn, <- (app_nil_r (created s)).
    by apply (fresh_app _ _ _ _ _ _ _ _ _ Hc).
Qed.

Lemma fetches_use_latest_token_witness :
  let run := main 2 Sample.api_ok (Sample.first_run Sample.job_bootstrap) in
  fetches run.2 = [(1, VInt 0); (2, VInt 0); (3, VInt 1)] ∧
  ∃ c', fresh Sample.api_ok 0 None run.2 2 c'.
Proof.
  intros run. split; [vm_compute; reflexivity|].
  exact (fetches_use_latest_token 2 Sample.api_ok
           (Sample.first_run Sample.job_bootstrap) run.1.1 run.1.2 run.2
           ltac:(vm_compute; reflexivity)).
Defined.

(** ** Appointments the API does not know *)

(** X12. In a run that completes, an ID answered with 404 is not warned
    about: the record with that id and status NOT_FOUND is among the rows
    appended and is a row of the dump afterwards. *)
Theorem not_found_is_recorded B api s job_df s' t aid tok r :
  drive s !! JOB_FILE_NAME = Some job_df →
  main B api s = (Ok tt, s', t) →
  (aid, tok) ∈ fetches t →
  get_appointment api aid tok = Got r →
  status_code r = 404 →
  let sentinel := [("id"%string, VInt aid); ("status"%string, VStr "NOT_FOUND")] in
  sentinel ∈ appended_rows t ∧
  (∃ d', drive s' !! DUMP_FILE_NAME = Some d' ∧ sentinel ∈ rows d') ∧
  ∀ e, (aid, e) ∉ warnings t.
Proof.
  intros Hj Hrun Hin Hget H404 sentinel.
  assert (fetch_appt api aid tok = Ok sentinel) as Hf
    by (unfold fetch_appt; by rewrite Hget, H404).
  destruct (main_completed B api s job_df s' t Hj Hrun)
    as (todo & Htodo & Hreq & Hrows & Hw & (d' & Hd' & Hr') & _).
  assert (sentinel ∈ appended_rows t) as Hs.
  { rewrite Hrows. apply list_elem_of_omap. exists (aid, tok).
    split; [done|]. unfold fetched. cbn [fst snd]. by rewrite Hf. }
  split; [done|]. split.
  - exists d'. split; [done|]. rewrite Hr'. apply elem_of_app. by right.
  - intros e. rewrite Hw. intros ([aid' tok'] & Hin' & Hfail)%list_elem_of_omap.
    unfold failed in Hfail. cbn [fst snd] in Hfail.
    destruct (fetch_appt api aid' tok') as [| |e'] eqn:Hf'; try done.
    injection Hfail as -> ->.
    pose proof (todo_ids_NoDup _ _ _ Htodo) as Hnd. rewrite <- Hreq in Hnd.
    assert ((aid, tok') ∈ filter (λ a, a.1 = aid) (fetches t)) as Hin2
      by (by apply list_elem_of_filter).
    rewrite (filter_key_NoDup _ _ _ Hnd Hin) in Hin2.
    apply list_elem_of_singleton in Hin2 as [= ->]. congruence.
Qed.

Lemma not_found_is_recorded_witness :
  let run := main BATCH_SIZE_default Sample.api_mixed
               (Sample.first_run (Sample.job_range 9)) in
  [("id"%string, VInt 6); ("status"%string, VStr "NOT_FOUND")]
    ∈ appended_rows run.2.
Proof.
  intros run.
  exact (proj1 (not_found_is_recorded BATCH_SIZE_default Sample.api_mixed
                  (Sample.first_run (Sample.job_range 9)) (Sample.job_range 9)
                  run.1.2 run.2 6 (VInt 0) (mkResponse 404 NotJson)
                  ltac:(vm_compute; reflexivity) ltac:(vm_compute; reflexivity)
                  ltac:(in_list) ltac:(vm_compute; reflexivity)
                  ltac:(reflexivity))).
Defined.

(** ** Google credentials *)

(** X13. When [drive_service] returns, token.pkl holds the credentials the
    service was built with; when a call raised, token.pkl is as it was.
    Stored credentials that are valid are used as they are, with no call
    and no write.  The browser flow is started exactly when there are no
    stored credentials, or they are not valid and are not both expired and
    refreshable. *)
Theorem drive_service_stores_what_it_uses g pkl :
  let run := drive_service g pkl in
  (∀ c, run.1.1 = Some c → run.1.2 = Some c) ∧
  (run.1.1 = None → run.1.2 = pkl) ∧
  (∀ c, pkl = Some c → valid c = true → run = (Some c, pkl, [])) ∧
  (EvFlow ∈ run.2 ↔
   pkl = None ∨
   ∃ c, pkl = Some c ∧ valid c = false ∧
        (expired c && has_refresh_token c) = false).
Proof.
  unfold drive_service.
  destruct pkl as [c|];
    [destruct (valid c) eqn:Hv;
     [|destruct (expired c && has_refresh_token c) eqn:Hr;
       [destruct (refresh g c)|destruct (run_local_server g)]]
    |destruct (run_local_server g)];
    cbn [fst snd]; (split; [|split; [|split]]);
    rewrite ?elem_of_cons, ?elem_of_nil; naive_solver congruence.
Qed.

Lemma drive_service_stores_what_it_uses_witness :
  let run := drive_service More.google_refreshes (Some More.creds_stale) in
  run.1.1 = Some (mkCreds true false (Some "1//refresh"%string)) ∧
  run.1.2 = run.1.1 ∧
  EvFlow ∉ run.2.
Proof.
  intros run.
  destruct (drive_service_stores_what_it_uses More.google_refreshes
              (Some More.creds_stale)) as (Hstored & _ & _ & Hflow).
  split; [reflexivity|]. split; [by apply Hstored|].
  intros [?|(c & [= <-] & _ & ?)]%Hflow; discriminate.
Defined.

(** ** The token request *)

Lemma token_reply_Ok p tok :
  token_reply p = Ok tok ↔
  ∃ r d, p = Got r ∧ ¬ (400 ≤ status_code r < 600) ∧
         body r = JsonObject d ∧ dict_get "access_token" d = Some tok.
Proof.
  unfold token_reply, raise_for_status.
  destruct p as [r|e]; [|split; [done|by intros (? & ? & ? & _)]].
  destruct ((400 <=? status_code r) && (status_code r <? 600)) eqn:Hs.
  - split; [done|]. intros (r' & d & Heq & Hr & _). injection Heq as <-.
    apply andb_true_iff in Hs as [?%Z.leb_le ?%Z.ltb_lt]. lia.
  - assert (¬ (400 ≤ status_code r < 600)) as Hn
      by (apply andb_false_iff in Hs as [?%Z.leb_gt|?%Z.ltb_ge]; lia).
    destruct (body r) as [|d|] eqn:Hb.
    + split; [done|]. intros (r' & d & Heq & _ & Hb' & _).
      injection Heq as <-. congruence.
    + destruct (dict_get "access_token" d) as [v|] eqn:Hk.
      * split; [intros [= <-]; by exists r, d|].
        intros (r' & d' & Heq & _ & Hb' & Hk'). injection Heq as <-. congruence.
      * split; [done|].
        intros (r' & d' & Heq & _ & Hb' & Hk'). injection Heq as <-. congruence.
    + split; [done|]. intros (r' & d & Heq & _ & Hb' & _).
      injection Heq as <-. congruence.
Qed.

(** X14. Every call to [st_token] is one token request, whatever comes
    back.  It returns a token exactly when the reply is a response whose
    status is not 4xx or 5xx and whose body is a JSON object with an
    access_token key, and the token is the value under that key; a 404 is
    an error like any other 4xx. *)
Theorem st_token_cases api s :
  (st_token api s).1.2 = authed s ∧
  (st_token api s).2 = [EvToken] ∧
  (∀ tok, (st_token api s).1.1 = Ok tok ↔
     ∃ r d, post_token api (token_requests s) = Got r ∧
            ¬ (400 ≤ status_code r < 600) ∧
            body r = JsonObject d ∧
            dict_get "access_token" d = Some tok) ∧
  (∀ r, post_token api (token_requests s) = Got r →
        400 ≤ status_code r < 600 →
        (st_token api s).1.1 = Raise (HTTPError (status_code r))).
Proof.
  unfold st_token, authed. cbn [fst snd].
  split; [done|]. split; [done|]. split; [intros tok; apply token_reply_Ok|].
  intros r -> Hr. unfold token_reply, raise_for_status.
  destruct (Z.leb_spec 400 (status_code r)), (Z.ltb_spec (status_code r) 600);
    cbn [andb]; (done || lia).
Qed.

Lemma st_token_cases_witness :
  (st_token Sample.api_ok (mkState ∅ 3)).1.1 = Ok (VInt 3) ∧
  (st_token More.api_no_token (mkState ∅ 0)).1.1 = Raise (HTTPError 401).
Proof.
  split.
  - destruct (st_token_cases Sample.api_ok (mkState ∅ 3)) as (_ & _ & Hok & _).
    apply Hok. eexists _, _. split; [reflexivity|]. split; [simpl; lia|].
    split; reflexivity.
  - destruct (st_token_cases More.api_no_token (mkState ∅ 0))
      as (_ & _ & _ & Herr).
    apply (Herr (mkResponse 401 NotJson)); [reflexivity|simpl; lia].
Defined.
